(** * gpytorch: the Diagonalization autograd function and the Beta likelihood

    A shallow embedding of [gpytorch/functions/_diagonalization.py] and
    [gpytorch/likelihoods/beta_likelihood.py].  Tensor entries are real
    numbers; a tensor is its list of sizes together with its entries.  The
    Beta likelihood, whose bounds depend on rounding, is also given with a
    rounding function and on binary64 numbers.  Python exceptions are the
    [Err] results of an error monad. *)

From Stdlib Require Import Reals Lra Lia List Arith ZArith Bool PrimFloat.
Import ListNotations.

Local Open Scope R_scope.

(** ** Exceptions *)

Inductive exn : Type :=
| IndexError
| RuntimeError
| InvalidShape
| NumericalFailure
| ValueError.

Inductive result (A : Type) : Type :=
| Ok (a : A)
| Err (e : exn).

Arguments Ok {A} a.
Arguments Err {A} e.

Definition bind {A B : Type} (c : result A) (k : A -> result B) : result B :=
  match c with
  | Ok a => k a
  | Err e => Err e
  end.

Notation "x <- c ;; k" := (bind c (fun x => k))
  (at level 61, c at next level, right associativity).
Notation "' pat <- c ;; k" := (bind c (fun x => match x with pat => k end))
  (at level 61, pat pattern, c at next level, right associativity).

(** ** Tensors

    [dims] lists the sizes and an index lists the coordinates, both starting
    from the LAST dimension: this is the direction in which torch counts the
    negative dimensions ([-1] is position [0], [-2] is position [1]) and in
    which it aligns shapes for broadcasting.  [shape] is the usual
    first-to-last view. *)

Record tensor : Type := mkT { dims : list nat; cell : list nat -> R }.

Definition shape (t : tensor) : list nat := rev (dims t).
Definition ndimension (t : tensor) : nat := length (dims t).

(** [t[b..., i, j]] and [v[b..., i]], with the batch index [b] read from its
    last coordinate. *)
Definition mat_at (t : tensor) (b : list nat) (i j : nat) : R := cell t (j :: i :: b).
Definition vec_at (t : tensor) (b : list nat) (i : nat) : R := cell t (i :: b).

Definition ins {A : Type} (p : nat) (x : A) (l : list A) : list A :=
  firstn p l ++ x :: skipn p l.
Definition del {A : Type} (p : nat) (l : list A) : list A :=
  firstn p l ++ skipn (S p) l.

(** Every coordinate below its size. *)
Fixpoint in_range (ix d : list nat) : bool :=
  match ix, d with
  | [], [] => true
  | i :: ix', n :: d' => (i <? n)%nat && in_range ix' d'
  | _, _ => false
  end.

(** All indices of a tensor of sizes [d] in row-major order (the last
    dimension runs fastest), and the entries of a tensor listed in that
    order: [t.flatten().tolist()]. *)
Fixpoint indices (d : list nat) : list (list nat) :=
  match d with
  | [] => [[]]
  | n :: d' => flat_map (fun rest => map (fun i => i :: rest) (seq 0 n)) (indices d')
  end.

Definition entries (t : tensor) : list R := map (cell t) (indices (dims t)).

(** [torch.tensor([x0, x1, ...])] and [torch.tensor([[...], [...], ...])] *)
Definition tensor1 (l : list R) : tensor :=
  mkT [length l] (fun ix => nth (hd 0%nat ix) l 0).
Definition tensor2 (rows : list (list R)) : tensor :=
  mkT [length (hd [] rows); length rows]
    (fun ix => nth (hd 0%nat ix) (nth (hd 0%nat (tl ix)) rows []) 0).

Definition sum_upto (n : nat) (f : nat -> R) : R :=
  fold_right (fun k acc => f k + acc) 0 (seq 0 n).

Module torch.

(** The position, counted from the last dimension, that dimension number [d]
    (negative numbers count from the end) has in a tensor of rank [r]; a
    rank-0 tensor accepts [-1] and [0]. *)
Definition wrap_dim (d : Z) (r : nat) : result nat :=
  let r' := Nat.max r 1 in
  if (0 <=? d)%Z then
    if (d <? Z.of_nat r')%Z then Ok (r' - 1 - Z.to_nat d)%nat else Err IndexError
  else
    if (- Z.of_nat r' <=? d)%Z then Ok (Z.to_nat (- d - 1)) else Err IndexError.

Definition unsqueeze (d : Z) (t : tensor) : result tensor :=
  p <- wrap_dim d (S (ndimension t)) ;;
  Ok (mkT (ins p 1%nat (dims t)) (fun ix => cell t (del p ix))).

(** [squeeze(d)] drops dimension [d] when its size is 1 and returns the tensor
    unchanged otherwise. *)
Definition squeeze (d : Z) (t : tensor) : result tensor :=
  p <- wrap_dim d (ndimension t) ;;
  Ok (if (nth p (dims t) 0 =? 1)%nat
      then mkT (del p (dims t)) (fun ix => cell t (ins p 0%nat ix))
      else t).

Definition swap2 (ix : list nat) : list nat :=
  match ix with
  | a :: b :: r => b :: a :: r
  | _ => ix
  end.

(** [t.transpose(-1, -2)] *)
Definition transpose_m1_m2 (t : tensor) : result tensor :=
  match dims t with
  | _ :: _ :: _ => Ok (mkT (swap2 (dims t)) (fun ix => cell t (swap2 ix)))
  | _ => Err IndexError
  end.

(** Broadcasting: shapes are aligned from the last dimension; sizes must agree
    or one of them be 1. *)
Fixpoint broadcast_dims (a b : list nat) : result (list nat) :=
  match a, b with
  | [], _ => Ok b
  | _, [] => Ok a
  | x :: a', y :: b' =>
      r <- broadcast_dims a' b' ;;
      if (x =? y)%nat then Ok (x :: r)
      else if (x =? 1)%nat then Ok (y :: r)
      else if (y =? 1)%nat then Ok (x :: r)
      else Err RuntimeError
  end.

(** The index at which an operand of sizes [d] is read for the entry [ix] of a
    broadcast result: coordinates of size-1 dimensions are pinned to 0 and
    the leading dimensions the operand lacks are dropped. *)
Fixpoint bix (d ix : list nat) : list nat :=
  match d, ix with
  | x :: d', i :: ix' => (if (x =? 1)%nat then 0%nat else i) :: bix d' ix'
  | _, _ => []
  end.

Definition pointwise2 (f : R -> R -> R) (a b : tensor) : result tensor :=
  d <- broadcast_dims (dims a) (dims b) ;;
  Ok (mkT d (fun ix => f (cell a (bix (dims a) ix)) (cell b (bix (dims b) ix)))).

Definition pointwise1 (f : R -> R) (a : tensor) : tensor :=
  mkT (dims a) (fun ix => f (cell a ix)).

Definition add : tensor -> tensor -> result tensor := pointwise2 Rplus.
Definition sub : tensor -> tensor -> result tensor := pointwise2 Rminus.
Definition mul : tensor -> tensor -> result tensor := pointwise2 Rmult.
Definition add_scalar (a : tensor) (c : R) : tensor := pointwise1 (fun x => x + c) a.
Definition scalar_mul (c : R) (a : tensor) : tensor := pointwise1 (fun x => c * x) a.

(** [t.reciprocal()].  On a zero entry torch yields an infinity and does not
    raise; the reals have no such value, so a zero denominator is tracked on
    the tensor the reciprocal is taken of. *)
Definition reciprocal (a : tensor) : tensor := pointwise1 Rinv a.

(** [a.matmul(b)] for operands of rank at least 2: the batch dimensions
    broadcast, the last two multiply as matrices.  (The vector forms of
    [matmul] are not used by the code modelled here.) *)
Definition matmul (a b : tensor) : result tensor :=
  match dims a, dims b with
  | k :: n :: ba, m :: k' :: bb =>
      if (k =? k')%nat then
        bo <- broadcast_dims ba bb ;;
        Ok (mkT (m :: n :: bo)
              (fun ix => match ix with
                         | j :: i :: bi =>
                             sum_upto k (fun c => cell a (c :: i :: bix ba bi)
                                                  * cell b (j :: c :: bix bb bi))
                         | _ => 0
                         end))
      else Err RuntimeError
  | _, _ => Err RuntimeError
  end.

(** [torch.eye(n)] *)
Definition eye (n : nat) : tensor :=
  mkT [n; n] (fun ix => match ix with
                        | j :: i :: _ => if (i =? j)%nat then 1 else 0
                        | _ => 0
                        end).

(** [torch.diag_embed(v)] *)
Definition diag_embed (v : tensor) : result tensor :=
  match dims v with
  | m :: bs =>
      Ok (mkT (m :: m :: bs)
            (fun ix => match ix with
                       | j :: i :: bi => if (i =? j)%nat then cell v (i :: bi) else 0
                       | _ => 0
                       end))
  | [] => Err RuntimeError
  end.

Fixpoint expandable (a target : list nat) : bool :=
  match a, target with
  | [], _ => true
  | x :: a', y :: t' => ((x =? y)%nat || (x =? 1)%nat) && expandable a' t'
  | _ :: _, [] => false
  end.

(** [a.expand_as(t)] *)
Definition expand_as (a t : tensor) : result tensor :=
  if expandable (dims a) (dims t)
  then Ok (mkT (dims t) (fun ix => cell a (bix (dims a) ix)))
  else Err RuntimeError.

(** [t.min(dim=-1, keepdim=True)[0]]: the values of the minimum along the last
    dimension, which is kept with size 1; on an empty last dimension torch
    raises an IndexError. *)
Definition min_m1_keepdim (t : tensor) : result tensor :=
  match dims t with
  | S k :: bs =>
      Ok (mkT (1%nat :: bs)
            (fun ix => fold_right (fun c acc => Rmin (cell t (c :: tl ix)) acc)
                         (cell t (0%nat :: tl ix)) (seq 1 k)))
  | 0%nat :: _ => Err IndexError
  | [] => Ok t
  end.

(** [t.size(d)] *)
Definition size (t : tensor) (d : Z) : result nat :=
  match dims t with
  | [] => Err IndexError
  | _ => p <- wrap_dim d (ndimension t) ;; Ok (nth p (dims t) 0%nat)
  end.

(** [t[..., torch.arange(m), torch.arange(m)] = 0.0] with [m = t.shape[-1]]:
    the in-place assignment, returned as the updated tensor. *)
Definition zero_diagonal (t : tensor) : result tensor :=
  match dims t with
  | m :: n :: _ =>
      if (m <=? n)%nat then
        Ok (mkT (dims t)
              (fun ix => match ix with
                         | j :: i :: _ => if (i =? j)%nat then 0 else cell t ix
                         | _ => cell t ix
                         end))
      else Err IndexError
  | _ => Err IndexError
  end.

(** [torch.sigmoid] *)
Definition sigmoid (x : R) : R := 1 / (1 + exp (- x)).

End torch.



Inductive device : Type := cpu | cuda (index : nat).
Inductive dtype : Type := float32 | float64.

(** Python's [l[i]] on a list or tuple, negative [i] counting from the end. *)
Definition py_index {A : Type} (l : list A) (i : Z) : result A :=
  let n := Z.of_nat (length l) in
  let k := if (i <? 0)%Z then (n + i)%Z else i in
  if ((0 <=? k) && (k <? n))%Z then
    match nth_error l (Z.to_nat k) with
    | Some x => Ok x
    | None => Err IndexError
    end
  else Err IndexError.

(** ** gpytorch.settings: the two flags read by the code *)

Record Settings : Type := {
  tridiagonal_jitter : R;
  memory_efficient : bool
}.

(** ** The lazy tensor built by the representation tree: [forward] uses its
    [_matmul] closure only. *)

Record LazyTensor : Type := { _matmul : tensor -> result tensor }.

(** Modelled from the spec: [gpytorch.lazy] is not among the sources;
    [lazify(t).diag()] of a dense tensor is the diagonal [T[i,i]] of each
    matrix of the batch (spec 4.2). *)
Definition lazify_diag (t : tensor) : result tensor :=
  match dims t with
  | m :: n :: bs =>
      Ok (mkT (Nat.min n m :: bs) (fun ix => cell t (hd 0%nat ix :: hd 0%nat ix :: tl ix)))
  | _ => Err RuntimeError
  end.

Module Diagonalization.

(** The autograd context [ctx]: the attributes [forward] sets on it and the
    tensors given to [save_for_backward]. *)
Record context : Type := {
  representation_tree : list tensor -> LazyTensor;
  device_ : device;
  dtype_ : dtype;
  matrix_shape : list nat;
  max_iter : nat;
  batch_shape : option (list nat);
  _lazy_tsr : option LazyTensor;
  saved_tensors : list tensor
}.

Definition save_for_backward (ctx : context) (to_save : list tensor) : context :=
  {| representation_tree := representation_tree ctx; device_ := device_ ctx;
     dtype_ := dtype_ ctx; matrix_shape := matrix_shape ctx; max_iter := max_iter ctx;
     batch_shape := batch_shape ctx; _lazy_tsr := _lazy_tsr ctx;
     saved_tensors := to_save |}.

Definition set_lazy_tsr (ctx : context) (lazy_tsr : LazyTensor) : context :=
  {| representation_tree := representation_tree ctx; device_ := device_ ctx;
     dtype_ := dtype_ ctx; matrix_shape := matrix_shape ctx; max_iter := max_iter ctx;
     batch_shape := batch_shape ctx; _lazy_tsr := Some lazy_tsr;
     saved_tensors := saved_tensors ctx |}.

Section forward.

Variable settings : Settings.

(** [lanczos.lanczos_tridiag] and [lanczos.lanczos_tridiag_to_diag] live in
    [gpytorch/utils/lanczos.py], which is not among the sources: [forward]
    is parametrised by them. *)
Variable lanczos_tridiag :
  (tensor -> result tensor) -> nat -> dtype -> device -> list nat ->
  option (list nat) -> result (tensor * tensor).
Variable lanczos_tridiag_to_diag : tensor -> result (tensor * tensor).

(** Lines 41-46: the batch and probe dimensions added before the
    eigensolve. *)
Definition unsqueeze_both (d : Z) (qt : tensor * tensor) : result (tensor * tensor) :=
  q <- torch.unsqueeze d (fst qt) ;;
  t <- torch.unsqueeze d (snd qt) ;;
  Ok (q, t).

Definition add_leading_dims (batch_shape : option (list nat)) (qt : tensor * tensor)
  : result (tensor * tensor) :=
  qt <- match batch_shape with
        | None => unsqueeze_both (-3) qt
        | Some _ => Ok qt
        end ;;
  if (ndimension (snd qt) =? 3)%nat then unsqueeze_both 0 qt else Ok qt.

(** Line 48 *)
Definition mins (t_mat : tensor) : result tensor :=
  d <- lazify_diag t_mat ;;
  m <- torch.min_m1_keepdim d ;;
  torch.unsqueeze (-1) m.

(** Lines 49-51 *)
Definition jitter_mat (t_mat : tensor) : result tensor :=
  mins <- mins t_mat ;;
  n <- torch.size t_mat (-1) ;;
  e <- torch.expand_as (torch.eye n) t_mat ;;
  torch.mul (torch.scalar_mul (tridiagonal_jitter settings) mins) e.

(** The argument of [lanczos_tridiag_to_diag] on line 52. *)
Definition jittered (t_mat : tensor) : result tensor :=
  jitter_mat <- jitter_mat t_mat ;;
  torch.add t_mat jitter_mat.

(** Lines 60-63 *)
Definition drop_leading_dims (batch_shape : option (list nat)) (q_mat eigenvalues : tensor)
  : result (tensor * tensor) :=
  q_mat <- match batch_shape with
           | None => torch.squeeze 1 q_mat
           | Some _ => Ok q_mat
           end ;;
  q_mat <- torch.squeeze 0 q_mat ;;
  eigenvalues <- torch.squeeze 0 eigenvalues ;;
  Ok (q_mat, eigenvalues).

Definition forward (ctx : context) (representation_tree : list tensor -> LazyTensor)
    (device : device) (dtype : dtype) (matrix_shape : list nat) (max_iter : nat)
    (batch_shape : option (list nat)) (matrix_args : list tensor)
  : result (context * (tensor * tensor)) :=
  let ctx := Build_context representation_tree device dtype matrix_shape max_iter
               batch_shape (_lazy_tsr ctx) (saved_tensors ctx) in
  let lazy_tsr := Diagonalization.representation_tree ctx matrix_args in
  let matmul_closure := _matmul lazy_tsr in
  qt <- lanczos_tridiag matmul_closure (Diagonalization.max_iter ctx) (dtype_ ctx)
          (device_ ctx) (Diagonalization.matrix_shape ctx)
          (Diagonalization.batch_shape ctx) ;;
  ' (q_mat, t_mat) <- add_leading_dims (Diagonalization.batch_shape ctx) qt ;;
  t_jit <- jittered t_mat ;;
  ' (eigenvalues, eigenvectors) <- lanczos_tridiag_to_diag t_jit ;;
  q_mat <- torch.matmul q_mat eigenvectors ;;
  let ctx := if negb (memory_efficient settings) then set_lazy_tsr ctx lazy_tsr else ctx in
  ' (q_mat, eigenvalues) <-
      drop_leading_dims (Diagonalization.batch_shape ctx) q_mat eigenvalues ;;
  let to_save := matrix_args ++ [q_mat; eigenvalues] in
  let ctx := save_for_backward ctx to_save in
  Ok (ctx, (eigenvalues, q_mat)).

End forward.

(** The constant 1e-10 of line 81. *)
Definition eps_num : R := 1e-10.

(** Line 81 before the reciprocal:
    [eigenvalues.unsqueeze(-1) - eigenvalues.unsqueeze(-2) + 1e-10]. *)
Definition kmat_denominator (eigenvalues : tensor) : result tensor :=
  col <- torch.unsqueeze (-1) eigenvalues ;;
  row <- torch.unsqueeze (-2) eigenvalues ;;
  diff <- torch.sub col row ;;
  Ok (torch.add_scalar diff eps_num).

(** Lines 81-82 *)
Definition kmat (eigenvalues : tensor) : result tensor :=
  den <- kmat_denominator eigenvalues ;;
  torch.zero_diagonal (torch.reciprocal den).

(** Line 85 *)
Definition inner_term (kmat q_mat evecs_grad_output : tensor) : result tensor :=
  kT <- torch.transpose_m1_m2 kmat ;;
  qT <- torch.transpose_m1_m2 q_mat ;;
  proj <- torch.matmul qT evecs_grad_output ;;
  torch.mul kT proj.

(** Line 86 *)
Definition term1 (q_mat inner_term : tensor) : result tensor :=
  a <- torch.matmul q_mat inner_term ;;
  qT <- torch.transpose_m1_m2 q_mat ;;
  torch.matmul a qT.

(** Line 89 *)
Definition term2 (q_mat evals_grad_output : tensor) : result tensor :=
  d <- torch.diag_embed evals_grad_output ;;
  a <- torch.matmul q_mat d ;;
  qT <- torch.transpose_m1_m2 q_mat ;;
  torch.matmul a qT.

Definition backward (ctx : context) (evals_grad_output evecs_grad_output : tensor)
  : result (list (option tensor)) :=
  q_mat <- py_index (saved_tensors ctx) (-2) ;;
  eigenvalues <- py_index (saved_tensors ctx) (-1) ;;
  kmat <- kmat eigenvalues ;;
  inner_term <- inner_term kmat q_mat evecs_grad_output ;;
  term1 <- term1 q_mat inner_term ;;
  term2 <- term2 q_mat evals_grad_output ;;
  dL_dM <- torch.add term1 term2 ;;
  let output := repeat None 6 ++ [Some dL_dM] in
  Ok output.

End Diagonalization.

(** ** gpytorch.utils.lanczos *)

Module lanczos.

Section tridiag.

(** The random probe vectors of the requested shape, and the three-term
    recurrence run from them (spec 4.1, steps 1-5). *)
Variable init_vecs : dtype -> device -> list nat -> tensor.
Variable recurrence :
  (tensor -> result tensor) -> nat -> tensor -> result (tensor * tensor).

(** Modelled from the spec: [gpytorch/utils/lanczos.py] is not among the
    sources.  Spec 4.1: the tridiagonalisation starts from probe vectors
    with as many rows as the declared matrix shape has columns, one batch of
    them per element of the declared batch shape, and applies the operator
    to them; spec 7: a mismatch between the declared matrix shape or batch
    shape and what the operator produces fails with [InvalidShape] before any
    iteration begins. *)
Definition lanczos_tridiag (matmul_closure : tensor -> result tensor) (max_iter : nat)
    (dtype : dtype) (device : device) (matrix_shape : list nat)
    (batch_shape : option (list nat)) : result (tensor * tensor) :=
  let batch := match batch_shape with None => [] | Some b => b end in
  let probe := init_vecs dtype device (batch ++ [last matrix_shape 0%nat; 1%nat]) in
  out <- matmul_closure probe ;;
  if list_eq_dec Nat.eq_dec (shape out) (batch ++ [hd 0%nat matrix_shape; 1%nat])
  then recurrence matmul_closure max_iter probe
  else Err InvalidShape.

End tridiag.

End lanczos.

(** ** gpytorch.likelihoods.beta_likelihood *)

Module BetaLikelihood.

(** A parameter constraint ([gpytorch.constraints], not among the sources):
    the likelihood uses its [transform] and [inverse_transform]. *)
Record Constraint : Type := {
  transform : tensor -> tensor;
  inverse_transform : tensor -> tensor
}.

Record BetaLikelihood : Type := {
  raw_scale : tensor;
  raw_scale_constraint : Constraint
}.

(** [base_distributions.Beta(concentration1=..., concentration0=...)]; the
    constructor requires both concentrations to be positive. *)
Record Beta : Type := {
  concentration1 : tensor;
  concentration0 : tensor
}.

Definition scale (self : BetaLikelihood) : tensor :=
  transform (raw_scale_constraint self) (raw_scale self).

(** Lines 54-59 over the reals; the rounding of a floating-point format and
    the validation of the constructor are in [rounded.forward] below. *)
Definition forward (self : BetaLikelihood) (function_samples : tensor) : result Beta :=
  let mixture := torch.pointwise1 torch.sigmoid function_samples in
  let scale := scale self in
  ms <- torch.mul mixture scale ;;
  let alpha := torch.add_scalar ms 1 in
  sa <- torch.sub scale alpha ;;
  let beta := torch.add_scalar sa 2 in
  Ok {| concentration1 := alpha; concentration0 := beta |}.

End BetaLikelihood.

(** ** The Beta likelihood in floating point

    [forward] as a floating-point format runs it: [sigmoid] is the format's
    [torch.sigmoid] and [rnd] rounds the exact result of each arithmetic
    operation to the format.  Exact arithmetic is [rnd x = x] with
    [torch.sigmoid] over the reals. *)
Module rounded.

Definition positive (x : R) : bool := if Rlt_dec 0 x then true else false.

(** [base_distributions.Beta(concentration1=..., concentration0=...)] is
    [torch.distributions.Beta]: the constructor broadcasts the two tensors
    and validates them, which raises a ValueError unless every entry is
    positive; the validation reshapes its result, which torch refuses for a
    tensor without entries. *)
Definition Beta_init (concentration1 concentration0 : tensor)
  : result BetaLikelihood.Beta :=
  d <- torch.broadcast_dims (dims concentration1) (dims concentration0) ;;
  let c1 := mkT d (fun ix => cell concentration1 (torch.bix (dims concentration1) ix)) in
  let c0 := mkT d (fun ix => cell concentration0 (torch.bix (dims concentration0) ix)) in
  if existsb (Nat.eqb 0) d then Err RuntimeError
  else if forallb (fun ix => positive (cell c1 ix) && positive (cell c0 ix)) (indices d)
  then Ok {| BetaLikelihood.concentration1 := c1; BetaLikelihood.concentration0 := c0 |}
  else Err ValueError.

Section format.

Variable rnd : R -> R.
Variable sigmoid : R -> R.

Definition mul : tensor -> tensor -> result tensor :=
  torch.pointwise2 (fun x y => rnd (x * y)).
Definition sub : tensor -> tensor -> result tensor :=
  torch.pointwise2 (fun x y => rnd (x - y)).
Definition add_scalar (a : tensor) (c : R) : tensor :=
  torch.pointwise1 (fun x => rnd (x + c)) a.

(** Lines 55-58: the two arguments of the constructor on line 59. *)
Definition concentrations (self : BetaLikelihood.BetaLikelihood) (function_samples : tensor)
  : result (tensor * tensor) :=
  let mixture := torch.pointwise1 sigmoid function_samples in
  let scale := BetaLikelihood.scale self in
  ms <- mul mixture scale ;;
  let alpha := add_scalar ms 1 in
  sa <- sub scale alpha ;;
  let beta := add_scalar sa 2 in
  Ok (alpha, beta).

Definition forward (self : BetaLikelihood.BetaLikelihood) (function_samples : tensor)
  : result BetaLikelihood.Beta :=
  ' (alpha, beta) <- concentrations self function_samples ;;
  Beta_init alpha beta.

End format.

End rounded.

(** ** The Beta likelihood on binary64 numbers

    Lines 55-58 on one entry, on IEEE 754 double-precision numbers (dtype
    [torch.float64]) with round-to-nearest. *)
Module binary64.

(** Line 55: [torch.sigmoid(x)] = 1 / (1 + exp(-x)), from [e] = exp(-x). *)
Definition sigmoid_of_exp (e : float) : float := (1 / (1 + e))%float.

(** Lines 57-58 *)
Definition concentrations (mixture scale : float) : float * float :=
  let alpha := (mixture * scale + 1)%float in
  let beta := (scale - alpha + 2)%float in
  (alpha, beta).

End binary64.

(** ** The gradient of spec 4.5, entry by entry

    The formulas as the specification writes them, for the batch element [b]
    of matrices [Q], [dQ] of [n] rows and [m] columns: [spec_inner] is
    [(K^T (.) (Q^T dQ))[i,j]], [spec_term1] is [(Q inner Q^T)[x,y]] and
    [spec_term2] is [(Q diag(dLam) Q^T)[x,y]]. *)

Definition spec_inner (K Q dQ : tensor) (b : list nat) (n i j : nat) : R :=
  mat_at K b j i * sum_upto n (fun c => mat_at Q b c i * mat_at dQ b c j).

Definition spec_term1 (K Q dQ : tensor) (b : list nat) (n m x y : nat) : R :=
  sum_upto m (fun j =>
    sum_upto m (fun i => mat_at Q b x i * spec_inner K Q dQ b n i j) * mat_at Q b y j).

Definition spec_term2 (Q dLam : tensor) (b : list nat) (m x y : nat) : R :=
  sum_upto m (fun i => mat_at Q b x i * vec_at dLam b i * mat_at Q b y i).

(** The minimum [min_i T[i,i]] of the diagonal of the batch element [b] of a
    tensor of [S k] by [S k] matrices (spec 4.2). *)
Definition diag_min (t : tensor) (b : list nat) (k : nat) : R :=
  fold_right (fun c acc => Rmin (mat_at t b c c) acc) (mat_at t b 0 0) (seq 1 k).

(** The batch sizes (last first) of the tensors given to the eigensolver,
    for batch sizes [bs] of the Lanczos output: lines 41-46 read as a
    function on shapes. *)
Definition leading_dims (batch_shape : option (list nat)) (bs : list nat) : list nat :=
  let b := match batch_shape with None => 1%nat :: bs | Some _ => bs end in
  if (length b =? 1)%nat then b ++ [1%nat] else b.

(** ** Concrete inputs *)

Definition ex_Q : tensor := tensor2 [[1; 0]; [0; 1]].
Definition ex_Lam : tensor := tensor1 [0; 1].
Definition ex_dQ : tensor := tensor2 [[1; 1]; [1; 1]].
Definition ex_dLam : tensor := tensor1 [1; 1].

Definition ex_tree (matrix_args : list tensor) : LazyTensor :=
  {| _matmul := fun v => torch.matmul (hd ex_Q matrix_args) v |}.

(** A context as [forward] leaves it for a two-by-two operator. *)
Definition ex_ctx : Diagonalization.context :=
  {| Diagonalization.representation_tree := ex_tree;
     Diagonalization.device_ := cpu;
     Diagonalization.dtype_ := float64;
     Diagonalization.matrix_shape := [2; 2]%nat;
     Diagonalization.max_iter := 2%nat;
     Diagonalization.batch_shape := Some [];
     Diagonalization._lazy_tsr := None;
     Diagonalization.saved_tensors := [ex_Q; ex_Q; ex_Lam] |}.

(** Eigenvalues with a repeated value and a third one [1e-10] above it. *)
Definition ex_Lam_gap : tensor := tensor1 [0; 0; 1e-10].

(** A Lanczos run of two iterations on a three-by-three operator, and an
    eigensolver for diagonal matrices. *)
Definition ex_settings : Settings :=
  {| tridiagonal_jitter := 1e-3; memory_efficient := true |}.
Definition ex_Q0 : tensor := tensor2 [[1; 0]; [0; 1]; [0; 0]].
Definition ex_T : tensor := tensor2 [[2; 0]; [0; 3]].
Definition ex_A : tensor := tensor2 [[2; 0; 0]; [0; 3; 0]; [0; 0; 5]].

Definition ex_lanczos (matmul_closure : tensor -> result tensor) (max_iter : nat)
    (dtype : dtype) (device : device) (matrix_shape : list nat)
    (batch_shape : option (list nat)) : result (tensor * tensor) :=
  Ok (ex_Q0, ex_T).

Definition ex_eig (t : tensor) : result (tensor * tensor) :=
  d <- lazify_diag t ;;
  e <- torch.expand_as (torch.eye 2) t ;;
  Ok (d, e).


(** A Beta likelihood of scale 1 and three function samples. *)
Definition ex_identity : BetaLikelihood.Constraint :=
  {| BetaLikelihood.transform := fun t => t;
     BetaLikelihood.inverse_transform := fun t => t |}.
Definition ex_likelihood : BetaLikelihood.BetaLikelihood :=
  {| BetaLikelihood.raw_scale := tensor1 [1];
     BetaLikelihood.raw_scale_constraint := ex_identity |}.

(** ** Further concrete inputs *)

Definition ex_zero_dQ : tensor := tensor2 [[0; 0]; [0; 0]].

(** A saved state with a single eigenpair. *)
Definition ex_Q1 : tensor := tensor2 [[1]; [0]].
Definition ex_Lam1 : tensor := tensor1 [3].
Definition ex_dQ1 : tensor := tensor2 [[1]; [1]].
Definition ex_dLam1 : tensor := tensor1 [1].

Definition with_saved (saved : list tensor) : Diagonalization.context :=
  Diagonalization.save_for_backward ex_ctx saved.

(** [l] without a leading 1: the shape [squeeze(0)] leaves. *)
Definition drop_leading_one (l : list nat) : list nat :=
  match l with
  | 1%nat :: r => r
  | _ => l
  end.

(** The Lanczos run above for a batch of one operator (shapes [1, 3, 2] and
    [1, 2, 2]) and for a batch shape [1, 2] (shapes [1, 2, 3, 2] and
    [1, 2, 2, 2]). *)
Definition ex_lanczos_batch (matmul_closure : tensor -> result tensor) (max_iter : nat)
    (dtype : dtype) (device : device) (matrix_shape : list nat)
    (batch_shape : option (list nat)) : result (tensor * tensor) :=
  Ok (mkT [2; 3; 1]%nat (cell ex_Q0), mkT [2; 2; 1]%nat (cell ex_T)).

Definition ex_lanczos_batch2 (matmul_closure : tensor -> result tensor) (max_iter : nat)
    (dtype : dtype) (device : device) (matrix_shape : list nat)
    (batch_shape : option (list nat)) : result (tensor * tensor) :=
  Ok (mkT [2; 3; 2; 1]%nat (cell ex_Q0), mkT [2; 2; 2; 1]%nat (cell ex_T)).


(** Tridiagonal matrices with a zero and with a negative diagonal entry. *)
Definition ex_T_zero : tensor := tensor2 [[0; 1]; [1; 2]].
Definition ex_T_negative : tensor := tensor2 [[-1; 1]; [1; 2]].

(** The settings with memory_efficient off. *)
Definition ex_settings_keep : Settings :=
  {| tridiagonal_jitter := 1e-3; memory_efficient := false |}.


(** What a call returns to its caller, without the context. *)
Definition returned {A B : Type} (r : result (A * B)) : result B :=
  match r with
  | Ok (_, b) => Ok b
  | Err e => Err e
  end.

(** exp(-40) in binary64. *)
Definition exp_minus_40 : float := 0x1.39792499b1a24p-58%float.

(** A sigmoid that saturates as the floating-point one does. *)
Definition ex_sigmoid (x : R) : R :=
  if Rle_dec 40 x then 1 else if Rle_dec x (-40) then 0 else torch.sigmoid x.

Definition ex_samples_far : tensor := tensor1 [-50; 0; 50].

(** A batch of shape [1, 2] of three-by-three operators. *)
Definition ex_A_batch2 : tensor := mkT [3; 3; 2; 1]%nat (cell ex_A).

(** The batch dimensions of a tensor whose last [core] dimensions are those
    of one vector ([core] = 1) or matrix ([core] = 2). *)
Definition batch_dims (core : nat) (t : tensor) : list nat :=
  firstn (length (shape t) - core) (shape t).

(** ** Proof steps *)

(** Reading the attributes [forward] has just set on the context, and running
    one step of the error monad whose result is known. *)
Ltac ctx_fields :=
  cbn [Diagonalization.representation_tree Diagonalization.max_iter
       Diagonalization.dtype_ Diagonalization.device_ Diagonalization.matrix_shape
       Diagonalization.batch_shape].

Ltac run H := rewrite H; cbn [bind].

(* ================================================================== *)
(** * Properties *)

(** ** The error monad and index arithmetic *)

Lemma in_range_cons (i n : nat) (ix d : list nat) :
  in_range (i :: ix) (n :: d) = true <-> (i < n)%nat /\ in_range ix d = true.
Proof.
  simpl. rewrite andb_true_iff, Nat.ltb_lt. tauto.
Qed.

Lemma bix_in_range (d ix : list nat) :
  in_range ix d = true -> torch.bix d ix = ix.
Proof.
  revert d. induction ix as [|i ix IH]; intros [|n d]; simpl; try discriminate; auto.
  rewrite andb_true_iff, Nat.ltb_lt. intros [Hi H].
  rewrite (IH _ H). destruct (Nat.eqb_spec n 1) as [->|_]; [|reflexivity].
  replace i with 0%nat by lia. reflexivity.
Qed.

Lemma broadcast_dims_same (d : list nat) : torch.broadcast_dims d d = Ok d.
Proof.
  induction d as [|x d IH]; simpl; [reflexivity|].
  rewrite IH. simpl. rewrite Nat.eqb_refl. reflexivity.
Qed.

Lemma wrap_dim_neg (d : Z) (r : nat) :
  (d < 0)%Z -> (- d <= Z.of_nat (Nat.max r 1))%Z ->
  torch.wrap_dim d r = Ok (Z.to_nat (- d - 1)).
Proof.
  intros Hd Hr. unfold torch.wrap_dim.
  destruct (Z.leb_spec 0 d); [lia|].
  destruct (Z.leb_spec (- Z.of_nat (Nat.max r 1)) d); [reflexivity|lia].
Qed.

Lemma wrap_dim_pos (d : Z) (r : nat) :
  (0 <= d)%Z -> (d < Z.of_nat (Nat.max r 1))%Z ->
  torch.wrap_dim d r = Ok (Nat.max r 1 - 1 - Z.to_nat d)%nat.
Proof.
  intros Hd Hr. unfold torch.wrap_dim.
  destruct (Z.leb_spec 0 d); [|lia].
  destruct (Z.ltb_spec d (Z.of_nat (Nat.max r 1))); [reflexivity|lia].
Qed.

(** ** Unsqueezing at the last dimensions *)

Lemma unsqueeze_m1 (t : tensor) :
  torch.unsqueeze (-1) t = Ok (mkT (1%nat :: dims t) (fun ix => cell t (tl ix))).
Proof.
  unfold torch.unsqueeze. rewrite wrap_dim_neg by lia. simpl. reflexivity.
Qed.

Lemma unsqueeze_m2 (t : tensor) (m : nat) (bs : list nat) :
  dims t = m :: bs ->
  torch.unsqueeze (-2) t
  = Ok (mkT (m :: 1%nat :: bs) (fun ix => cell t (firstn 1 ix ++ skipn 2 ix))).
Proof.
  intros H. unfold torch.unsqueeze, ndimension. rewrite H.
  rewrite wrap_dim_neg by (simpl length; lia). reflexivity.
Qed.

Lemma broadcast_dims_outer (m : nat) (bs : list nat) :
  torch.broadcast_dims (1%nat :: m :: bs) (m :: 1%nat :: bs) = Ok (m :: m :: bs).
Proof.
  destruct m as [|[|k]]; simpl; rewrite broadcast_dims_same; reflexivity.
Qed.

(** ** The matrix K of the backward pass *)

Lemma kmat_denominator_entries (eigenvalues : tensor) (m : nat) (bs : list nat) :
  dims eigenvalues = m :: bs ->
  exists den,
    Diagonalization.kmat_denominator eigenvalues = Ok den /\
    dims den = m :: m :: bs /\
    forall bi i j, (i < m)%nat -> (j < m)%nat -> in_range bi bs = true ->
      mat_at den bi i j
      = vec_at eigenvalues bi i - vec_at eigenvalues bi j + Diagonalization.eps_num.
Proof.
  intros H. unfold Diagonalization.kmat_denominator.
  rewrite unsqueeze_m1, (unsqueeze_m2 _ _ _ H). simpl.
  unfold torch.sub, torch.pointwise2. simpl dims. rewrite H, broadcast_dims_outer. simpl.
  eexists. split; [reflexivity|]. split; [reflexivity|].
  intros bi i j Hi Hj Hb. unfold mat_at, vec_at. simpl.
  rewrite (bix_in_range _ _ Hb).
  destruct (Nat.eqb_spec m 1) as [->|_]; [|reflexivity].
  replace i with 0%nat by lia. replace j with 0%nat by lia. reflexivity.
Qed.

Lemma kmat_entries (eigenvalues : tensor) (m : nat) (bs : list nat) :
  dims eigenvalues = m :: bs ->
  exists K,
    Diagonalization.kmat eigenvalues = Ok K /\
    dims K = m :: m :: bs /\
    forall bi i j, (i < m)%nat -> (j < m)%nat -> in_range bi bs = true ->
      mat_at K bi i j
      = if (i =? j)%nat then 0
        else / (vec_at eigenvalues bi i - vec_at eigenvalues bi j + Diagonalization.eps_num).
Proof.
  intros H. destruct (kmat_denominator_entries _ _ _ H) as (den & Hden & Hd & Hcell).
  unfold Diagonalization.kmat. rewrite Hden. simpl.
  unfold torch.zero_diagonal. simpl dims. rewrite Hd, Nat.leb_refl.
  eexists. split; [reflexivity|]. split; [reflexivity|].
  intros bi i j Hi Hj Hb. unfold mat_at. simpl.
  destruct (i =? j)%nat; [reflexivity|].
  f_equal. apply (Hcell bi i j Hi Hj Hb).
Qed.

(** ** Entry-wise readings of the tensor operations *)

Lemma sum_upto_S (n : nat) (f : nat -> R) : sum_upto (S n) f = sum_upto n f + f n.
Proof.
  unfold sum_upto. rewrite seq_S, fold_right_app. simpl.
  generalize (seq 0 n). intros l. induction l as [|x l IH]; simpl; [lra|].
  rewrite IH. lra.
Qed.

Lemma sum_upto_ext (n : nat) (f g : nat -> R) :
  (forall k, (k < n)%nat -> f k = g k) -> sum_upto n f = sum_upto n g.
Proof.
  induction n as [|n IH]; intros H; [reflexivity|].
  rewrite !sum_upto_S, IH, (H n) by auto with arith. reflexivity.
Qed.

Lemma sum_upto_zero (n : nat) (f : nat -> R) :
  (forall k, (k < n)%nat -> f k = 0) -> sum_upto n f = 0.
Proof.
  induction n as [|n IH]; intros H; [reflexivity|].
  rewrite sum_upto_S, IH, (H n) by auto with arith. lra.
Qed.

(** A sum against a Kronecker delta keeps one term. *)
Lemma sum_upto_delta (n j : nat) (f v : nat -> R) :
  (j < n)%nat ->
  sum_upto n (fun i => f i * (if (i =? j)%nat then v i else 0)) = f j * v j.
Proof.
  induction n as [|n IH]; intros Hj; [lia|].
  rewrite sum_upto_S. destruct (Nat.eq_dec j n) as [->|Hne].
  - rewrite Nat.eqb_refl, sum_upto_zero; [lra|].
    intros k Hk. destruct (Nat.eqb_spec k n); [lia|lra].
  - rewrite IH by lia. destruct (Nat.eqb_spec n j); [lia|lra].
Qed.

Lemma py_index_from_end {A : Type} (pre post : list A) (i : Z) (x : A) :
  (i < 0)%Z -> (- i <= Z.of_nat (length post))%Z ->
  nth_error post (length post - Z.to_nat (- i)) = Some x ->
  py_index (pre ++ post) i = Ok x.
Proof.
  intros Hi Hle Hx. unfold py_index. cbv zeta.
  rewrite length_app.
  destruct (Z.ltb_spec i 0) as [_|]; [|lia].
  set (k := (Z.of_nat (length pre + length post) + i)%Z).
  assert (E : ((0 <=? k) && (k <? Z.of_nat (length pre + length post)))%Z = true).
  { apply andb_true_iff. split; [apply Z.leb_le | apply Z.ltb_lt]; unfold k; lia. }
  rewrite E.
  replace (Z.to_nat k) with (length pre + (length post - Z.to_nat (- i)))%nat
    by (unfold k; lia).
  rewrite nth_error_app2 by lia.
  replace (length pre + (length post - Z.to_nat (- i)) - length pre)%nat
    with (length post - Z.to_nat (- i))%nat by lia.
  rewrite Hx. reflexivity.
Qed.

Lemma py_index_m2 {A : Type} (pre : list A) (x y : A) :
  py_index (pre ++ [x; y]) (-2) = Ok x.
Proof. apply py_index_from_end; simpl; try lia; reflexivity. Qed.

Lemma py_index_m1 {A : Type} (pre : list A) (x y : A) :
  py_index (pre ++ [x; y]) (-1) = Ok y.
Proof. apply py_index_from_end; simpl; try lia; reflexivity. Qed.

Lemma matmul_entries (a b : tensor) (k n m : nat) (bs : list nat) :
  dims a = k :: n :: bs -> dims b = m :: k :: bs ->
  exists c,
    torch.matmul a b = Ok c /\ dims c = m :: n :: bs /\
    forall bi i j, in_range bi bs = true ->
      mat_at c bi i j = sum_upto k (fun x => mat_at a bi i x * mat_at b bi x j).
Proof.
  intros Ha Hb. unfold torch.matmul. rewrite Ha, Hb, Nat.eqb_refl, broadcast_dims_same.
  simpl. eexists. split; [reflexivity|]. split; [reflexivity|].
  intros bi i j Hbi. unfold mat_at. simpl. rewrite (bix_in_range _ _ Hbi). reflexivity.
Qed.

Lemma transpose_entries (t : tensor) (m n : nat) (bs : list nat) :
  dims t = m :: n :: bs ->
  exists r,
    torch.transpose_m1_m2 t = Ok r /\ dims r = n :: m :: bs /\
    forall bi i j, mat_at r bi i j = mat_at t bi j i.
Proof.
  intros H. unfold torch.transpose_m1_m2. rewrite H. simpl.
  eexists. split; [reflexivity|]. split; [reflexivity|]. reflexivity.
Qed.

Lemma pointwise2_entries (f : R -> R -> R) (a b : tensor) (d : list nat) :
  dims a = d -> dims b = d ->
  exists r,
    torch.pointwise2 f a b = Ok r /\ dims r = d /\
    forall ix, in_range ix d = true -> cell r ix = f (cell a ix) (cell b ix).
Proof.
  intros Ha Hb. unfold torch.pointwise2. rewrite Ha, Hb, broadcast_dims_same. simpl.
  eexists. split; [reflexivity|]. split; [reflexivity|].
  intros ix Hix. simpl. rewrite (bix_in_range _ _ Hix). reflexivity.
Qed.

Lemma diag_embed_entries (v : tensor) (m : nat) (bs : list nat) :
  dims v = m :: bs ->
  exists r,
    torch.diag_embed v = Ok r /\ dims r = m :: m :: bs /\
    forall bi i j, mat_at r bi i j = if (i =? j)%nat then vec_at v bi i else 0.
Proof.
  intros H. unfold torch.diag_embed. rewrite H.
  eexists. split; [reflexivity|]. split; [reflexivity|]. reflexivity.
Qed.

Lemma in_range_mat (bi bs : list nat) (i j n m : nat) :
  (i < n)%nat -> (j < m)%nat -> in_range bi bs = true ->
  in_range (j :: i :: bi) (m :: n :: bs) = true.
Proof.
  intros Hi Hj Hb. simpl. rewrite Hb.
  destruct (Nat.ltb_spec j m); [|lia]. destruct (Nat.ltb_spec i n); [|lia]. reflexivity.
Qed.

(** ** The backward pass, step by step *)

Lemma inner_term_entries (K Q dQ : tensor) (n m : nat) (bs : list nat) :
  dims K = m :: m :: bs -> dims Q = m :: n :: bs -> dims dQ = m :: n :: bs ->
  exists it,
    Diagonalization.inner_term K Q dQ = Ok it /\ dims it = m :: m :: bs /\
    forall bi i j, (i < m)%nat -> (j < m)%nat -> in_range bi bs = true ->
      mat_at it bi i j = spec_inner K Q dQ bi n i j.
Proof.
  intros HK HQ HdQ. unfold Diagonalization.inner_term.
  destruct (transpose_entries K _ _ _ HK) as (kT & -> & HkT & EkT).
  destruct (transpose_entries Q _ _ _ HQ) as (qT & -> & HqT & EqT).
  simpl.
  destruct (matmul_entries qT dQ _ _ _ _ HqT HdQ) as (proj & -> & Hproj & Eproj).
  simpl.
  destruct (pointwise2_entries Rmult kT proj _ HkT Hproj) as (it & Hit & Hd & Eit).
  exists it. split; [exact Hit|]. split; [exact Hd|].
  intros bi i j Hi Hj Hb. unfold mat_at at 1.
  rewrite Eit by (apply in_range_mat; assumption).
  fold (mat_at kT bi i j). fold (mat_at proj bi i j).
  rewrite EkT, (Eproj _ _ _ Hb). unfold spec_inner. f_equal.
  apply sum_upto_ext. intros c _. rewrite EqT. reflexivity.
Qed.

Lemma term1_entries (Q it : tensor) (n m : nat) (bs : list nat) :
  dims Q = m :: n :: bs -> dims it = m :: m :: bs ->
  exists t1,
    Diagonalization.term1 Q it = Ok t1 /\ dims t1 = n :: n :: bs /\
    forall bi x y, in_range bi bs = true ->
      mat_at t1 bi x y
      = sum_upto m (fun j =>
          sum_upto m (fun i => mat_at Q bi x i * mat_at it bi i j) * mat_at Q bi y j).
Proof.
  intros HQ Hit. unfold Diagonalization.term1.
  destruct (matmul_entries Q it _ _ _ _ HQ Hit) as (a & -> & Ha & Ea). simpl.
  destruct (transpose_entries Q _ _ _ HQ) as (qT & -> & HqT & EqT). simpl.
  destruct (matmul_entries a qT _ _ _ _ Ha HqT) as (t1 & Ht1 & Hd & Et1).
  exists t1. split; [exact Ht1|]. split; [exact Hd|].
  intros bi x y Hb. rewrite (Et1 _ _ _ Hb). apply sum_upto_ext. intros j _.
  rewrite (Ea _ _ _ Hb), EqT. reflexivity.
Qed.

Lemma term2_entries (Q dLam : tensor) (n m : nat) (bs : list nat) :
  dims Q = m :: n :: bs -> dims dLam = m :: bs ->
  exists t2,
    Diagonalization.term2 Q dLam = Ok t2 /\ dims t2 = n :: n :: bs /\
    forall bi x y, in_range bi bs = true ->
      mat_at t2 bi x y = spec_term2 Q dLam bi m x y.
Proof.
  intros HQ HL. unfold Diagonalization.term2.
  destruct (diag_embed_entries dLam _ _ HL) as (d & -> & Hd & Ed). simpl.
  destruct (matmul_entries Q d _ _ _ _ HQ Hd) as (a & -> & Ha & Ea). simpl.
  destruct (transpose_entries Q _ _ _ HQ) as (qT & -> & HqT & EqT). simpl.
  destruct (matmul_entries a qT _ _ _ _ Ha HqT) as (t2 & Ht2 & Hd2 & Et2).
  exists t2. split; [exact Ht2|]. split; [exact Hd2|].
  intros bi x y Hb. rewrite (Et2 _ _ _ Hb). unfold spec_term2.
  apply sum_upto_ext. intros j Hj.
  rewrite (Ea _ _ _ Hb), EqT. f_equal.
  rewrite (sum_upto_ext _ _
             (fun i => mat_at Q bi x i * (if (i =? j)%nat then vec_at dLam bi i else 0)))
    by (intros i _; rewrite Ed; reflexivity).
  apply (sum_upto_delta m j (fun i => mat_at Q bi x i) (fun i => vec_at dLam bi i) Hj).
Qed.

(** The whole backward pass on a saved state [Q], [Lam] of matching sizes. *)
Lemma backward_steps (ctx : Diagonalization.context) (dLam dQ Q Lam : tensor)
    (pre : list tensor) (n m : nat) (bs : list nat) :
  Diagonalization.saved_tensors ctx = pre ++ [Q; Lam] ->
  dims Q = m :: n :: bs -> dims Lam = m :: bs ->
  dims dQ = m :: n :: bs -> dims dLam = m :: bs ->
  exists K it t1 t2 g,
    Diagonalization.kmat Lam = Ok K /\
    Diagonalization.inner_term K Q dQ = Ok it /\
    Diagonalization.term1 Q it = Ok t1 /\
    Diagonalization.term2 Q dLam = Ok t2 /\
    torch.add t1 t2 = Ok g /\
    Diagonalization.backward ctx dLam dQ = Ok (repeat None 6 ++ [Some g]) /\
    dims g = n :: n :: bs /\
    forall bi x y, (x < n)%nat -> (y < n)%nat -> in_range bi bs = true ->
      mat_at g bi x y = spec_term1 K Q dQ bi n m x y + spec_term2 Q dLam bi m x y.
Proof.
  intros Hs HQ HL HdQ HdL.
  destruct (kmat_entries Lam _ _ HL) as (K & HK & HKd & _).
  destruct (inner_term_entries K Q dQ _ _ _ HKd HQ HdQ) as (it & Hit & Hitd & Eit).
  destruct (term1_entries Q it _ _ _ HQ Hitd) as (t1 & Ht1 & Ht1d & Et1).
  destruct (term2_entries Q dLam _ _ _ HQ HdL) as (t2 & Ht2 & Ht2d & Et2).
  destruct (pointwise2_entries Rplus t1 t2 _ Ht1d Ht2d) as (g & Hg & Hgd & Eg).
  exists K, it, t1, t2, g. repeat split; try assumption.
  - unfold Diagonalization.backward.
    rewrite Hs, py_index_m2, py_index_m1. simpl.
    rewrite HK. simpl. rewrite Hit. simpl. rewrite Ht1. simpl. rewrite Ht2. simpl.
    unfold torch.add. rewrite Hg. reflexivity.
  - intros bi x y Hx Hy Hb. unfold mat_at at 1.
    rewrite Eg by (apply in_range_mat; assumption).
    fold (mat_at t1 bi x y). fold (mat_at t2 bi x y).
    rewrite (Et1 _ _ _ Hb), (Et2 _ _ _ Hb). f_equal.
    unfold spec_term1. apply sum_upto_ext. intros j Hj. f_equal.
    apply sum_upto_ext. intros i Hi. rewrite (Eit _ _ _ Hi Hj Hb). reflexivity.
Qed.

(** ** Claims about the backward pass *)

(** C1: for every saved eigenvector matrix Q and eigenvalue vector Lam and
    every pair of upstream gradients, the backward pass returns the gradient
    term1 + term2, with term1 = Q (K^T (.) (Q^T dL/dQ)) Q^T for the
    reciprocal-gap matrix K the pass builds, and term2 = Q diag(dL/dLam) Q^T. *)
Theorem backward_returns_term1_plus_term2
    (ctx : Diagonalization.context) (dLam dQ Q Lam : tensor)
    (pre : list tensor) (n m : nat) (bs : list nat) :
  Diagonalization.saved_tensors ctx = pre ++ [Q; Lam] ->
  dims Q = m :: n :: bs -> dims Lam = m :: bs ->
  dims dQ = m :: n :: bs -> dims dLam = m :: bs ->
  exists K g,
    Diagonalization.kmat Lam = Ok K /\
    Diagonalization.backward ctx dLam dQ = Ok (repeat None 6 ++ [Some g]) /\
    shape g = rev bs ++ [n; n] /\
    forall bi x y, (x < n)%nat -> (y < n)%nat -> in_range bi bs = true ->
      mat_at g bi x y = spec_term1 K Q dQ bi n m x y + spec_term2 Q dLam bi m x y.
Proof.
  intros Hs HQ HL HdQ HdL.
  destruct (backward_steps ctx dLam dQ Q Lam pre n m bs Hs HQ HL HdQ HdL)
    as (K & it & t1 & t2 & g & HK & _ & _ & _ & _ & Hb & Hd & E).
  exists K, g. repeat split; try assumption.
  unfold shape. rewrite Hd. simpl. rewrite <- !app_assoc. reflexivity.
Qed.

Lemma backward_returns_term1_plus_term2_witness :
  exists K g,
    Diagonalization.kmat ex_Lam = Ok K /\
    Diagonalization.backward ex_ctx ex_dLam ex_dQ = Ok (repeat None 6 ++ [Some g]) /\
    shape g = rev [] ++ [2; 2]%nat /\
    forall bi x y, (x < 2)%nat -> (y < 2)%nat -> in_range bi [] = true ->
      mat_at g bi x y
      = spec_term1 K ex_Q ex_dQ bi 2 2 x y + spec_term2 ex_Q ex_dLam bi 2 x y.
Proof.
  apply (backward_returns_term1_plus_term2 ex_ctx ex_dLam ex_dQ ex_Q ex_Lam [ex_Q]);
    reflexivity.
Defined.

(** C2, as the code has it: K[i,j] = 1/(Lam[i] - Lam[j] + eps_num) for every
    pair i <> j (the gap is taken row minus column), and K[i,i] = 0, with the
    same eps_num = 1e-10 on every entry. *)
Theorem kmat_reciprocal_gaps (eigenvalues : tensor) (m : nat) (bs : list nat) :
  dims eigenvalues = m :: bs ->
  exists K,
    Diagonalization.kmat eigenvalues = Ok K /\
    shape K = rev bs ++ [m; m] /\
    forall bi i j, (i < m)%nat -> (j < m)%nat -> in_range bi bs = true ->
      (i <> j ->
       mat_at K bi i j
       = / (vec_at eigenvalues bi i - vec_at eigenvalues bi j + 1e-10)) /\
      mat_at K bi i i = 0.
Proof.
  intros H. destruct (kmat_entries eigenvalues m bs H) as (K & HK & Hd & E).
  exists K. split; [exact HK|]. split.
  - unfold shape. rewrite Hd. simpl. rewrite <- !app_assoc. reflexivity.
  - intros bi i j Hi Hj Hb. split.
    + intros Hne. rewrite (E bi i j Hi Hj Hb).
      destruct (Nat.eqb_spec i j); [contradiction|reflexivity].
    + rewrite (E bi i i Hi Hi Hb), Nat.eqb_refl. reflexivity.
Qed.

Lemma kmat_reciprocal_gaps_witness :
  exists K,
    Diagonalization.kmat ex_Lam = Ok K /\
    shape K = rev [] ++ [2; 2]%nat /\
    forall bi i j, (i < 2)%nat -> (j < 2)%nat -> in_range bi [] = true ->
      (i <> j ->
       mat_at K bi i j = / (vec_at ex_Lam bi i - vec_at ex_Lam bi j + 1e-10)) /\
      mat_at K bi i i = 0.
Proof. apply (kmat_reciprocal_gaps ex_Lam 2 []). reflexivity. Defined.

(** C2 as the specification states it fails: for the eigenvalues [0, 1] the
    entry K[0,1] is 1/(0 - 1 + 1e-10), not 1/(Lam[1] - Lam[0] + 1e-10). *)
Lemma kmat_column_minus_row_fails :
  exists K,
    Diagonalization.kmat ex_Lam = Ok K /\
    mat_at K [] 0 1 <> / (vec_at ex_Lam [] 1 - vec_at ex_Lam [] 0 + 1e-10).
Proof.
  destruct (kmat_entries ex_Lam 2 [] eq_refl) as (K & HK & _ & E).
  exists K. split; [exact HK|].
  rewrite (E [] 0%nat 1%nat) by (try lia; reflexivity).
  unfold vec_at, Diagonalization.eps_num. simpl.
  intros H. apply Rinv_eq_reg in H. lra.
Qed.

(** C4: the backward pass returns seven values: None for each of the six
    non-differentiable forward inputs (representation tree, device, dtype,
    matrix shape, iteration count, batch shape) and, last, the gradient
    term1 + term2 of the parameter tensor. *)
Theorem backward_output_tuple
    (ctx : Diagonalization.context) (dLam dQ Q Lam : tensor)
    (pre : list tensor) (n m : nat) (bs : list nat) :
  Diagonalization.saved_tensors ctx = pre ++ [Q; Lam] ->
  dims Q = m :: n :: bs -> dims Lam = m :: bs ->
  dims dQ = m :: n :: bs -> dims dLam = m :: bs ->
  exists K it t1 t2 dL_dM,
    Diagonalization.kmat Lam = Ok K /\
    Diagonalization.inner_term K Q dQ = Ok it /\
    Diagonalization.term1 Q it = Ok t1 /\
    Diagonalization.term2 Q dLam = Ok t2 /\
    torch.add t1 t2 = Ok dL_dM /\
    Diagonalization.backward ctx dLam dQ
    = Ok [None; None; None; None; None; None; Some dL_dM].
Proof.
  intros Hs HQ HL HdQ HdL.
  destruct (backward_steps ctx dLam dQ Q Lam pre n m bs Hs HQ HL HdQ HdL)
    as (K & it & t1 & t2 & g & HK & Hit & Ht1 & Ht2 & Hg & Hb & _).
  exists K, it, t1, t2, g. repeat split; assumption.
Qed.

Lemma backward_output_tuple_witness :
  exists K it t1 t2 dL_dM,
    Diagonalization.kmat ex_Lam = Ok K /\
    Diagonalization.inner_term K ex_Q ex_dQ = Ok it /\
    Diagonalization.term1 ex_Q it = Ok t1 /\
    Diagonalization.term2 ex_Q ex_dLam = Ok t2 /\
    torch.add t1 t2 = Ok dL_dM /\
    Diagonalization.backward ex_ctx ex_dLam ex_dQ
    = Ok [None; None; None; None; None; None; Some dL_dM].
Proof.
  apply (backward_output_tuple ex_ctx ex_dLam ex_dQ ex_Q ex_Lam [ex_Q] 2 2 []);
    reflexivity.
Defined.

(** ** The jitter added before the eigensolve *)

Lemma fold_Rmin_spec (f : nat -> R) (x0 : R) (l : list nat) :
  let mu := fold_right (fun c acc => Rmin (f c) acc) x0 l in
  (mu = x0 \/ exists c, In c l /\ mu = f c) /\
  mu <= x0 /\ forall c, In c l -> mu <= f c.
Proof.
  induction l as [|a l IH]; simpl.
  - split; [left; reflexivity|]. split; [lra|]. intros c [].
  - destruct IH as (Hin & Hle0 & Hle).
    set (mu := fold_right (fun c acc => Rmin (f c) acc) x0 l) in *.
    split; [|split].
    + unfold Rmin. destruct (Rle_dec (f a) mu).
      * right. exists a. split; [left; reflexivity|reflexivity].
      * destruct Hin as [E|(c & Hc & E)]; [left; exact E|].
        right. exists c. split; [right; exact Hc|exact E].
    + apply Rle_trans with mu; [apply Rmin_r|exact Hle0].
    + intros c [->|Hc]; [apply Rmin_l|].
      apply Rle_trans with mu; [apply Rmin_r|apply Hle; exact Hc].
Qed.

Lemma diag_min_spec (t : tensor) (b : list nat) (k : nat) :
  (exists c, (c < S k)%nat /\ diag_min t b k = mat_at t b c c) /\
  forall c, (c < S k)%nat -> diag_min t b k <= mat_at t b c c.
Proof.
  destruct (fold_Rmin_spec (fun c => mat_at t b c c) (mat_at t b 0 0) (seq 1 k))
    as (Hin & Hle0 & Hle).
  fold (diag_min t b k) in *. split.
  - destruct Hin as [E|(c & Hc & E)].
    + exists 0%nat. split; [lia|exact E].
    + exists c. apply in_seq in Hc. split; [lia|exact E].
  - intros c Hc. destruct c as [|c]; [exact Hle0|].
    apply Hle. apply in_seq. lia.
Qed.

Lemma broadcast_dims_ones (m : nat) (bs : list nat) :
  torch.broadcast_dims (1%nat :: 1%nat :: bs) (m :: m :: bs) = Ok (m :: m :: bs).
Proof.
  destruct m as [|[|k]]; simpl; rewrite broadcast_dims_same; reflexivity.
Qed.

Lemma eye_bix (m i j : nat) (bi : list nat) :
  (i < m)%nat -> (j < m)%nat ->
  cell (torch.eye m) (torch.bix [m; m] (j :: i :: bi)) = if (i =? j)%nat then 1 else 0.
Proof.
  intros Hi Hj. simpl. destruct (Nat.eqb_spec m 1) as [->|_]; [|reflexivity].
  replace i with 0%nat by lia. replace j with 0%nat by lia. reflexivity.
Qed.

Lemma mins_entries (settings : Settings) (t : tensor) (k : nat) (B : list nat) :
  dims t = S k :: S k :: B ->
  exists mn,
    Diagonalization.mins t = Ok mn /\ dims mn = 1%nat :: 1%nat :: B /\
    forall ix, cell mn ix = diag_min t (tl (tl ix)) k.
Proof.
  intros H. unfold Diagonalization.mins, lazify_diag. rewrite H, Nat.min_id.
  cbn [bind]. unfold torch.min_m1_keepdim. cbn [dims bind].
  rewrite unsqueeze_m1. eexists. split; [reflexivity|]. split; [reflexivity|].
  intros ix. reflexivity.
Qed.

Lemma jitter_mat_entries (settings : Settings) (t : tensor) (k : nat) (B : list nat) :
  dims t = S k :: S k :: B ->
  exists J,
    Diagonalization.jitter_mat settings t = Ok J /\ dims J = S k :: S k :: B /\
    forall bi i j, (i < S k)%nat -> (j < S k)%nat -> in_range bi B = true ->
      mat_at J bi i j
      = tridiagonal_jitter settings * diag_min t bi k * (if (i =? j)%nat then 1 else 0).
Proof.
  intros H. unfold Diagonalization.jitter_mat.
  destruct (mins_entries settings t k B H) as (mn & -> & Hmn & Emn). cbn [bind].
  unfold torch.size, ndimension. rewrite H.
  rewrite wrap_dim_neg by (simpl length; lia). cbn [bind]. simpl nth.
  unfold torch.expand_as. rewrite H.
  assert (Ex : torch.expandable (dims (torch.eye (S k))) (S k :: S k :: B) = true).
  { simpl. rewrite Nat.eqb_refl. reflexivity. }
  rewrite Ex. cbn [bind].
  unfold torch.mul, torch.pointwise2. cbn [dims torch.scalar_mul torch.pointwise1].
  rewrite Hmn, broadcast_dims_ones. cbn [bind].
  eexists. split; [reflexivity|]. split; [reflexivity|].
  intros bi i j Hi Hj Hb. unfold mat_at, torch.scalar_mul, torch.pointwise1. cbn [cell].
  rewrite (bix_in_range (S k :: S k :: B) (j :: i :: bi))
    by (apply in_range_mat; assumption).
  change (dims (torch.eye (S k))) with [S k; S k].
  rewrite (eye_bix (S k) i j bi Hi Hj), Emn.
  replace (torch.bix (1%nat :: 1%nat :: B) (j :: i :: bi))
    with (0%nat :: 0%nat :: bi) by (simpl; rewrite (bix_in_range _ _ Hb); reflexivity).
  reflexivity.
Qed.

Lemma jittered_entries (settings : Settings) (t : tensor) (k : nat) (B : list nat) :
  dims t = S k :: S k :: B ->
  exists tj,
    Diagonalization.jittered settings t = Ok tj /\
    dims tj = S k :: S k :: B /\
    forall bi i j, (i < S k)%nat -> (j < S k)%nat -> in_range bi B = true ->
      mat_at tj bi i j
      = mat_at t bi i j
        + (if (i =? j)%nat then tridiagonal_jitter settings * diag_min t bi k else 0).
Proof.
  intros H. unfold Diagonalization.jittered.
  destruct (jitter_mat_entries settings t k B H) as (J & -> & HJ & EJ). cbn [bind].
  destruct (pointwise2_entries Rplus t J _ H HJ) as (tj & Htj & Hd & E).
  exists tj. split; [exact Htj|]. split; [exact Hd|].
  intros bi i j Hi Hj Hb. unfold mat_at at 1.
  rewrite E by (apply in_range_mat; assumption).
  fold (mat_at t bi i j). fold (mat_at J bi i j).
  rewrite (EJ bi i j Hi Hj Hb). destruct (i =? j)%nat; lra.
Qed.

(** ** The forward pass, step by step *)

Lemma unsqueeze_m3 (t : tensor) (a b : nat) (rest : list nat) :
  dims t = a :: b :: rest ->
  torch.unsqueeze (-3) t
  = Ok (mkT (a :: b :: 1%nat :: rest) (fun ix => cell t (del 2 ix))).
Proof.
  intros H. unfold torch.unsqueeze, ndimension. rewrite H.
  rewrite wrap_dim_neg by (simpl length; lia). reflexivity.
Qed.

Lemma unsqueeze_0 (t : tensor) :
  torch.unsqueeze 0 t
  = Ok (mkT (dims t ++ [1%nat]) (fun ix => cell t (del (ndimension t) ix))).
Proof.
  unfold torch.unsqueeze. rewrite wrap_dim_pos by lia.
  replace (Nat.max (S (ndimension t)) 1 - 1 - Z.to_nat 0)%nat with (ndimension t) by lia.
  cbn [bind]. unfold ins, ndimension. rewrite firstn_all, skipn_all. reflexivity.
Qed.

Lemma add_leading_dims_ok (batch_shape : option (list nat)) (q0 t0 : tensor)
    (m n m1 m2 : nat) (bs : list nat) :
  dims q0 = m :: n :: bs -> dims t0 = m1 :: m2 :: bs ->
  exists q1 t1,
    Diagonalization.add_leading_dims batch_shape (q0, t0) = Ok (q1, t1) /\
    dims q1 = m :: n :: leading_dims batch_shape bs /\
    dims t1 = m1 :: m2 :: leading_dims batch_shape bs.
Proof.
  intros Hq Ht. unfold Diagonalization.add_leading_dims, leading_dims.
  assert (Step : forall (q t : tensor) (b : list nat),
             dims q = m :: n :: b -> dims t = m1 :: m2 :: b ->
             exists q1 t1,
               (if (ndimension (snd (q, t)) =? 3)%nat
                then Diagonalization.unsqueeze_both 0 (q, t) else Ok (q, t)) = Ok (q1, t1) /\
               dims q1 = m :: n :: (if (length b =? 1)%nat then b ++ [1%nat] else b) /\
               dims t1 = m1 :: m2 :: (if (length b =? 1)%nat then b ++ [1%nat] else b)).
  { intros q t b Hq' Ht'. cbn [snd]. unfold ndimension. rewrite Ht'. cbn [length].
    change (S (S (length b)) =? 3)%nat with (length b =? 1)%nat.
    destruct (length b =? 1)%nat.
    - unfold Diagonalization.unsqueeze_both. cbn [fst snd].
      rewrite !unsqueeze_0. cbn [bind]. eexists. eexists.
      split; [reflexivity|]. cbn [dims]. rewrite Hq', Ht'. split; reflexivity.
    - exists q, t. repeat split; assumption. }
  destruct batch_shape as [b|].
  - cbn [bind]. apply Step; assumption.
  - unfold Diagonalization.unsqueeze_both at 1. cbn [fst snd].
    rewrite (unsqueeze_m3 _ _ _ _ Hq), (unsqueeze_m3 _ _ _ _ Ht). cbn [bind].
    apply Step; reflexivity.
Qed.

Lemma squeeze_total (d : Z) (t : tensor) :
  (0 <= d)%Z -> (d < Z.of_nat (Nat.max (ndimension t) 1))%Z ->
  exists r, torch.squeeze d t = Ok r.
Proof.
  intros H0 H1. unfold torch.squeeze. rewrite wrap_dim_pos by assumption.
  cbn [bind]. eexists. reflexivity.
Qed.

Lemma drop_leading_dims_ok (batch_shape : option (list nat)) (q ev : tensor) :
  (2 <= ndimension q)%nat ->
  exists q' ev', Diagonalization.drop_leading_dims batch_shape q ev = Ok (q', ev').
Proof.
  intros Hr. unfold Diagonalization.drop_leading_dims.
  assert (Last : forall q1, exists q' ev',
             (q2 <- torch.squeeze 0 q1 ;; e <- torch.squeeze 0 ev ;; Ok (q2, e))
             = Ok (q', ev')).
  { intros q1.
    destruct (squeeze_total 0 q1) as (q2 & ->); [lia|lia|]. cbn [bind].
    destruct (squeeze_total 0 ev) as (e & ->); [lia|lia|]. cbn [bind].
    exists q2, e. reflexivity. }
  destruct batch_shape as [b|]; cbn [bind]; [apply Last|].
  destruct (squeeze_total 1 q) as (q1 & ->); [lia|lia|]. cbn [bind]. apply Last.
Qed.

(** ** Squeezing and unsqueezing keep the entries *)

Lemma indices_length (d ix : list nat) : In ix (indices d) -> length ix = length d.
Proof.
  revert ix. induction d as [|n d IH]; intros ix; simpl.
  - intros [<-|[]]. reflexivity.
  - rewrite in_flat_map. intros (rest & Hr & Hi).
    apply in_map_iff in Hi. destruct Hi as (i & <- & _). simpl. f_equal. auto.
Qed.

Lemma del_cons {A : Type} (p : nat) (a : A) (l : list A) :
  del (S p) (a :: l) = a :: del p l.
Proof. reflexivity. Qed.

Lemma ins_cons {A : Type} (p : nat) (x a : A) (l : list A) :
  ins (S p) x (a :: l) = a :: ins p x l.
Proof. reflexivity. Qed.

Lemma indices_singleton (p : nat) (d : list nat) :
  (p < length d)%nat -> nth p d 0%nat = 1%nat ->
  indices d = map (ins p 0%nat) (indices (del p d)).
Proof.
  revert d. induction p as [|p IH]; intros [|n d] Hp Hn; simpl in Hp; try lia.
  - simpl in Hn. subst n. change (del 0 (1%nat :: d)) with d.
    cbn [indices seq map]. 
    induction (indices d) as [|x l IHl]; simpl; [reflexivity|]. f_equal; exact IHl.
  - simpl in Hn. rewrite del_cons. cbn [indices].
    rewrite (IH d) at 1 by (assumption || lia).
    induction (indices (del p d)) as [|x l IHl]; simpl; [reflexivity|].
    rewrite map_app, IHl. f_equal. rewrite !map_map. apply map_ext. intros i.
    rewrite ins_cons. reflexivity.
Qed.

Lemma del_ins {A : Type} (p : nat) (x : A) (l : list A) :
  (p <= length l)%nat -> del p (ins p x l) = l.
Proof.
  revert l. induction p as [|p IH]; intros l Hp; [reflexivity|].
  destruct l as [|a l]; simpl in Hp; [lia|].
  unfold del, ins in *. simpl. f_equal. apply IH. lia.
Qed.

Lemma nth_ins {A : Type} (p : nat) (x d0 : A) (l : list A) :
  (p <= length l)%nat -> nth p (ins p x l) d0 = x.
Proof.
  revert l. induction p as [|p IH]; intros l Hp; [reflexivity|].
  destruct l as [|a l]; simpl in Hp; [lia|].
  unfold ins in *. simpl. apply IH. lia.
Qed.

Lemma length_ins {A : Type} (p : nat) (x : A) (l : list A) :
  length (ins p x l) = S (length l).
Proof.
  unfold ins. rewrite length_app. simpl. rewrite length_firstn, length_skipn. lia.
Qed.

Lemma wrap_dim_bound (d : Z) (r p : nat) :
  torch.wrap_dim d r = Ok p -> (p < Nat.max r 1)%nat.
Proof.
  unfold torch.wrap_dim.
  destruct (Z.leb_spec 0 d).
  - destruct (Z.ltb_spec d (Z.of_nat (Nat.max r 1))); [|discriminate].
    intros E. injection E as <-. lia.
  - destruct (Z.leb_spec (- Z.of_nat (Nat.max r 1)) d); [|discriminate].
    intros E. injection E as <-. lia.
Qed.

Lemma squeeze_entries (d : Z) (t r : tensor) :
  torch.squeeze d t = Ok r -> entries r = entries t.
Proof.
  unfold torch.squeeze.
  destruct (torch.wrap_dim d (ndimension t)) as [p|e]; cbn [bind]; [|discriminate].
  intros E. injection E as <-.
  destruct (nth p (dims t) 0 =? 1)%nat eqn:Hp; [|reflexivity].
  apply Nat.eqb_eq in Hp.
  assert (Hlt : (p < length (dims t))%nat).
  { destruct (Nat.lt_ge_cases p (length (dims t))) as [|Hge]; [assumption|].
    rewrite nth_overflow in Hp by assumption. discriminate. }
  unfold entries. cbn [dims cell].
  rewrite (indices_singleton p (dims t) Hlt Hp), map_map. reflexivity.
Qed.

Lemma unsqueeze_entries (d : Z) (t r : tensor) :
  torch.unsqueeze d t = Ok r -> entries r = entries t.
Proof.
  unfold torch.unsqueeze.
  destruct (torch.wrap_dim d (S (ndimension t))) as [p|e] eqn:Hw; cbn [bind]; [|discriminate].
  intros E. injection E as <-.
  apply wrap_dim_bound in Hw.
  assert (Hp : (p <= length (dims t))%nat) by (unfold ndimension in Hw; lia).
  unfold entries. cbn [dims cell].
  rewrite (indices_singleton p (ins p 1%nat (dims t)))
    by (rewrite ?length_ins, ?nth_ins; (reflexivity || lia)).
  rewrite (del_ins p 1%nat (dims t) Hp), map_map.
  apply map_ext_in. intros ix Hix. apply indices_length in Hix.
  rewrite del_ins by lia. reflexivity.
Qed.

Lemma unsqueeze_both_entries (d : Z) (q t q1 t1 : tensor) :
  Diagonalization.unsqueeze_both d (q, t) = Ok (q1, t1) ->
  entries q1 = entries q /\ entries t1 = entries t.
Proof.
  unfold Diagonalization.unsqueeze_both. cbn [fst snd].
  destruct (torch.unsqueeze d q) as [q'|e] eqn:Hq; cbn [bind]; [|discriminate].
  destruct (torch.unsqueeze d t) as [t'|e] eqn:Ht; cbn [bind]; [|discriminate].
  intros E. injection E as <- <-.
  split; eapply unsqueeze_entries; eassumption.
Qed.

Lemma add_leading_dims_entries (batch_shape : option (list nat)) (q0 t0 q1 t1 : tensor) :
  Diagonalization.add_leading_dims batch_shape (q0, t0) = Ok (q1, t1) ->
  entries q1 = entries q0 /\ entries t1 = entries t0.
Proof.
  unfold Diagonalization.add_leading_dims.
  assert (Step : forall q t,
             (if (ndimension (snd (q, t)) =? 3)%nat
              then Diagonalization.unsqueeze_both 0 (q, t) else Ok (q, t)) = Ok (q1, t1) ->
             entries q1 = entries q /\ entries t1 = entries t).
  { intros q t. destruct (ndimension (snd (q, t)) =? 3)%nat.
    - apply unsqueeze_both_entries.
    - intros E. injection E as <- <-. split; reflexivity. }
  destruct batch_shape as [b|]; cbn [bind]; [apply Step|].
  destruct (Diagonalization.unsqueeze_both (-3) (q0, t0)) as [[q t]|e] eqn:H3;
    cbn [bind]; [|discriminate].
  intros E. apply Step in E. apply unsqueeze_both_entries in H3.
  destruct E as [-> ->]. exact H3.
Qed.

Lemma drop_leading_dims_entries (batch_shape : option (list nat)) (q ev q' ev' : tensor) :
  Diagonalization.drop_leading_dims batch_shape q ev = Ok (q', ev') ->
  entries q' = entries q /\ entries ev' = entries ev.
Proof.
  unfold Diagonalization.drop_leading_dims.
  assert (Last : forall q1,
             (q2 <- torch.squeeze 0 q1 ;; e <- torch.squeeze 0 ev ;; Ok (q2, e))
             = Ok (q', ev') ->
             entries q' = entries q1 /\ entries ev' = entries ev).
  { intros q1.
    destruct (torch.squeeze 0 q1) as [q2|e] eqn:H2; cbn [bind]; [|discriminate].
    destruct (torch.squeeze 0 ev) as [e2|e] eqn:He; cbn [bind]; [|discriminate].
    intros E. injection E as <- <-.
    split; eapply squeeze_entries; eassumption. }
  destruct batch_shape as [b|]; cbn [bind]; [apply Last|].
  destruct (torch.squeeze 1 q) as [q1|e] eqn:H1; cbn [bind]; [|discriminate].
  intros E. apply Last in E. apply squeeze_entries in H1.
  destruct E as [-> ->]. split; [exact H1|reflexivity].
Qed.

(** ** Claims about the forward pass *)

Section forward_pass.

(** One invocation [forward(ctx, representation_tree, device, dtype,
    matrix_shape, max_iter, batch_shape, *matrix_args)] under given settings
    and Lanczos routines. *)
Variable settings : Settings.
Variable lanczos_tridiag :
  (tensor -> result tensor) -> nat -> dtype -> device -> list nat ->
  option (list nat) -> result (tensor * tensor).
Variable lanczos_tridiag_to_diag : tensor -> result (tensor * tensor).
Variable ctx : Diagonalization.context.
Variable representation_tree : list tensor -> LazyTensor.
Variable device : device.
Variable dtype : dtype.
Variable matrix_shape : list nat.
Variable max_iter : nat.
Variable batch_shape : option (list nat).
Variable matrix_args : list tensor.

Lemma forward_steps (q0 t0 : tensor) (n k : nat) (bs : list nat) :
  lanczos_tridiag (_matmul (representation_tree matrix_args)) max_iter dtype device
    matrix_shape batch_shape = Ok (q0, t0) ->
  dims q0 = S k :: n :: bs -> dims t0 = S k :: S k :: bs ->
  (forall tj, dims tj = S k :: S k :: leading_dims batch_shape bs ->
     exists L U, lanczos_tridiag_to_diag tj = Ok (L, U) /\ dims U = dims tj) ->
  let B := leading_dims batch_shape bs in
  let ctx0 := Diagonalization.Build_context representation_tree device dtype matrix_shape
                max_iter batch_shape (Diagonalization._lazy_tsr ctx)
                (Diagonalization.saved_tensors ctx) in
  exists q1 t1 tj L U QU q_out ev_out,
    Diagonalization.add_leading_dims batch_shape (q0, t0) = Ok (q1, t1) /\
    dims q1 = S k :: n :: B /\ dims t1 = S k :: S k :: B /\
    Diagonalization.jittered settings t1 = Ok tj /\ dims tj = S k :: S k :: B /\
    lanczos_tridiag_to_diag tj = Ok (L, U) /\ dims U = S k :: S k :: B /\
    torch.matmul q1 U = Ok QU /\ dims QU = S k :: n :: B /\
    Diagonalization.drop_leading_dims batch_shape QU L = Ok (q_out, ev_out) /\
    Diagonalization.forward settings lanczos_tridiag lanczos_tridiag_to_diag ctx
      representation_tree device dtype matrix_shape max_iter batch_shape matrix_args
    = Ok (Diagonalization.save_for_backward
            (if negb (memory_efficient settings)
             then Diagonalization.set_lazy_tsr ctx0 (representation_tree matrix_args)
             else ctx0)
            (matrix_args ++ [q_out; ev_out]),
          (ev_out, q_out)).
Proof.
  intros Hl Hq Ht Heig B ctx0.
  destruct (add_leading_dims_ok batch_shape q0 t0 _ _ _ _ _ Hq Ht)
    as (q1 & t1 & Hadd & Hq1 & Ht1).
  destruct (jittered_entries settings t1 k B Ht1) as (tj & Hj & Htj & _).
  destruct (Heig tj Htj) as (L & U & HU & HUd). rewrite Htj in HUd.
  destruct (matmul_entries q1 U _ _ _ _ Hq1 HUd) as (QU & HQU & HQUd & _).
  destruct (drop_leading_dims_ok batch_shape QU L) as (q_out & ev_out & Hdrop).
  { unfold ndimension. rewrite HQUd. simpl. lia. }
  exists q1, t1, tj, L, U, QU, q_out, ev_out.
  repeat (split; [assumption|]).
  unfold Diagonalization.forward.
  ctx_fields.
  run Hl. run Hadd. run Hj. run HU. run HQU.
  fold ctx0.
  replace (Diagonalization.batch_shape
             (if negb (memory_efficient settings)
              then Diagonalization.set_lazy_tsr ctx0 (representation_tree matrix_args)
              else ctx0)) with batch_shape by (destruct (memory_efficient settings); reflexivity).
  rewrite Hdrop. reflexivity.
Qed.

(** C3: for every tridiagonal matrix T produced by the Lanczos stage, and for
    every batch element independently, the matrix the forward pass hands to
    the eigensolver is T + eps I with eps = tridiagonal_jitter * min_i T[i,i],
    the minimum of the diagonal of that batch element: the forward pass is
    the eigensolver applied to that matrix tj, followed by the product with
    the Lanczos basis, the squeezes and the save; a failure of the
    eigensolver on tj is the failure of the forward pass, and the eigenvalues
    it returns for tj are the eigenvalues the forward pass returns. *)
Theorem eigensolver_input_is_T_plus_min_diagonal_jitter (q0 t0 : tensor) (n k : nat) (bs : list nat) :
  lanczos_tridiag (_matmul (representation_tree matrix_args)) max_iter dtype device
    matrix_shape batch_shape = Ok (q0, t0) ->
  dims q0 = S k :: n :: bs -> dims t0 = S k :: S k :: bs ->
  let ctx0 := Diagonalization.Build_context representation_tree device dtype matrix_shape
                max_iter batch_shape (Diagonalization._lazy_tsr ctx)
                (Diagonalization.saved_tensors ctx) in
  exists q1 T tj,
    Diagonalization.add_leading_dims batch_shape (q0, t0) = Ok (q1, T) /\
    entries T = entries t0 /\
    Diagonalization.jittered settings T = Ok tj /\
    Diagonalization.forward settings lanczos_tridiag lanczos_tridiag_to_diag ctx
      representation_tree device dtype matrix_shape max_iter batch_shape matrix_args
    = (' (eigenvalues, eigenvectors) <- lanczos_tridiag_to_diag tj ;;
       q_mat <- torch.matmul q1 eigenvectors ;;
       ' (q_mat, eigenvalues) <-
           Diagonalization.drop_leading_dims batch_shape q_mat eigenvalues ;;
       Ok (Diagonalization.save_for_backward
             (if negb (memory_efficient settings)
              then Diagonalization.set_lazy_tsr ctx0 (representation_tree matrix_args)
              else ctx0)
             (matrix_args ++ [q_mat; eigenvalues]),
           (eigenvalues, q_mat))) /\
    (forall e, lanczos_tridiag_to_diag tj = Err e ->
       Diagonalization.forward settings lanczos_tridiag lanczos_tridiag_to_diag ctx
         representation_tree device dtype matrix_shape max_iter batch_shape matrix_args
       = Err e) /\
    (forall L U, lanczos_tridiag_to_diag tj = Ok (L, U) -> dims U = dims tj ->
       exists ctx' eigenvalues q_mat,
         Diagonalization.forward settings lanczos_tridiag lanczos_tridiag_to_diag ctx
           representation_tree device dtype matrix_shape max_iter batch_shape matrix_args
         = Ok (ctx', (eigenvalues, q_mat)) /\
         entries eigenvalues = entries L) /\
    (forall solver : tensor -> result (tensor * tensor),
       solver tj = lanczos_tridiag_to_diag tj ->
       Diagonalization.forward settings lanczos_tridiag solver ctx
         representation_tree device dtype matrix_shape max_iter batch_shape matrix_args
       = Diagonalization.forward settings lanczos_tridiag lanczos_tridiag_to_diag ctx
           representation_tree device dtype matrix_shape max_iter batch_shape matrix_args) /\
    forall bi, in_range bi (leading_dims batch_shape bs) = true ->
      exists mu,
        (exists c, (c < S k)%nat /\ mu = mat_at T bi c c) /\
        (forall c, (c < S k)%nat -> mu <= mat_at T bi c c) /\
        forall i j, (i < S k)%nat -> (j < S k)%nat ->
          mat_at tj bi i j
          = mat_at T bi i j
            + (if (i =? j)%nat then tridiagonal_jitter settings * mu else 0).
Proof.
  intros Hl Hq Ht ctx0.
  destruct (add_leading_dims_ok batch_shape q0 t0 _ _ _ _ _ Hq Ht)
    as (q1 & T & Hadd & Hq1 & HT).
  destruct (jittered_entries settings T k _ HT) as (tj & Hj & Htj & E).
  assert (Hf : Diagonalization.forward settings lanczos_tridiag lanczos_tridiag_to_diag ctx
      representation_tree device dtype matrix_shape max_iter batch_shape matrix_args
    = (' (eigenvalues, eigenvectors) <- lanczos_tridiag_to_diag tj ;;
       q_mat <- torch.matmul q1 eigenvectors ;;
       ' (q_mat, eigenvalues) <-
           Diagonalization.drop_leading_dims batch_shape q_mat eigenvalues ;;
       Ok (Diagonalization.save_for_backward
             (if negb (memory_efficient settings)
              then Diagonalization.set_lazy_tsr ctx0 (representation_tree matrix_args)
              else ctx0)
             (matrix_args ++ [q_mat; eigenvalues]),
           (eigenvalues, q_mat)))).
  { unfold Diagonalization.forward.
    ctx_fields.
    run Hl. run Hadd. run Hj. fold ctx0.
    destruct (lanczos_tridiag_to_diag tj) as [[L U]|e]; cbn [bind]; [|reflexivity].
    destruct (torch.matmul q1 U) as [QU|e]; cbn [bind]; [|reflexivity].
    destruct (memory_efficient settings); reflexivity. }
  exists q1, T, tj. split; [exact Hadd|].
  split; [apply (add_leading_dims_entries _ _ _ _ _ Hadd)|].
  split; [exact Hj|]. split; [exact Hf|]. split; [|split; [|split]].
  - intros e He. rewrite Hf, He. reflexivity.
  - intros L U HU HUd. rewrite Htj in HUd.
    destruct (matmul_entries q1 U _ _ _ _ Hq1 HUd) as (QU & HQU & HQUd & _).
    destruct (drop_leading_dims_ok batch_shape QU L) as (q_out & ev_out & Hdrop).
    { unfold ndimension. rewrite HQUd. simpl. lia. }
    destruct (drop_leading_dims_entries _ _ _ _ _ Hdrop) as (_ & Ee).
    eexists. exists ev_out, q_out. split; [|exact Ee].
    rewrite Hf, HU. cbn [bind]. rewrite HQU. cbn [bind]. rewrite Hdrop. reflexivity.
  - intros solver Hs. unfold Diagonalization.forward.
    ctx_fields.
    run Hl. run Hadd. run Hj. rewrite Hs. reflexivity.
  - intros bi Hb. exists (diag_min T bi k).
    destruct (diag_min_spec T bi k) as (Hin & Hle).
    split; [exact Hin|]. split; [exact Hle|].
    intros i j Hi Hj'. apply E; assumption.
Qed.


(** C7: the state a forward invocation saves for the gradient pass is exactly
    the operator's parameter tensors followed by the final Q and the
    eigenvalues; with memory_efficient on, the operator object is not stored
    on the context; and the backward pass reads only the saved Q and
    eigenvalues. *)
Theorem forward_saves_parameters_Q_and_eigenvalues
    (ctx' : Diagonalization.context) (eigenvalues q_mat : tensor) :
  Diagonalization.forward settings lanczos_tridiag lanczos_tridiag_to_diag ctx
    representation_tree device dtype matrix_shape max_iter batch_shape matrix_args
  = Ok (ctx', (eigenvalues, q_mat)) ->
  Diagonalization.saved_tensors ctx' = matrix_args ++ [q_mat; eigenvalues] /\
  (memory_efficient settings = true ->
   Diagonalization._lazy_tsr ctx' = Diagonalization._lazy_tsr ctx) /\
  forall (other : Diagonalization.context) (pre : list tensor) (dLam dQ : tensor),
    Diagonalization.saved_tensors other = pre ++ [q_mat; eigenvalues] ->
    Diagonalization.backward other dLam dQ = Diagonalization.backward ctx' dLam dQ.
Proof.
  unfold Diagonalization.forward.
  ctx_fields.
  destruct (lanczos_tridiag _ _ _ _ _ _) as [qt|e]; cbn [bind]; [|discriminate].
  destruct (Diagonalization.add_leading_dims _ _) as [[q1 t1]|e]; cbn [bind]; [|discriminate].
  destruct (Diagonalization.jittered _ _) as [tj|e]; cbn [bind]; [|discriminate].
  destruct (lanczos_tridiag_to_diag tj) as [[L U]|e]; cbn [bind]; [|discriminate].
  destruct (torch.matmul q1 U) as [QU|e]; cbn [bind]; [|discriminate].
  destruct (memory_efficient settings) eqn:Hm; cbn [negb];
    cbn [Diagonalization.batch_shape Diagonalization.set_lazy_tsr];
    (destruct (Diagonalization.drop_leading_dims batch_shape QU L) as [[q' e']|e];
     cbn [bind]; [|discriminate]);
    intros E; injection E as <- <- <-;
    (split; [reflexivity|]); (split; [intros; (reflexivity || discriminate)|]);
    intros other pre dLam dQ Ho; unfold Diagonalization.backward;
    rewrite Ho; cbn [Diagonalization.saved_tensors Diagonalization.save_for_backward];
    rewrite !py_index_m2, !py_index_m1; reflexivity.
Qed.

End forward_pass.


Lemma eigensolver_input_is_T_plus_min_diagonal_jitter_witness :
  let ctx0 := Diagonalization.Build_context ex_tree cpu float64 [3; 3]%nat 2 (Some [])
                (Diagonalization._lazy_tsr ex_ctx) (Diagonalization.saved_tensors ex_ctx) in
  exists q1 T tj,
    Diagonalization.add_leading_dims (Some []) (ex_Q0, ex_T) = Ok (q1, T) /\
    entries T = entries ex_T /\
    Diagonalization.jittered ex_settings T = Ok tj /\
    Diagonalization.forward ex_settings ex_lanczos ex_eig ex_ctx
      ex_tree cpu float64 [3; 3]%nat 2 (Some []) [ex_A]
    = (' (eigenvalues, eigenvectors) <- ex_eig tj ;;
       q_mat <- torch.matmul q1 eigenvectors ;;
       ' (q_mat, eigenvalues) <-
           Diagonalization.drop_leading_dims (Some []) q_mat eigenvalues ;;
       Ok (Diagonalization.save_for_backward
             (if negb (memory_efficient ex_settings)
              then Diagonalization.set_lazy_tsr ctx0 (ex_tree [ex_A])
              else ctx0)
             ([ex_A] ++ [q_mat; eigenvalues]),
           (eigenvalues, q_mat))) /\
    (forall e, ex_eig tj = Err e ->
       Diagonalization.forward ex_settings ex_lanczos ex_eig ex_ctx
         ex_tree cpu float64 [3; 3]%nat 2 (Some []) [ex_A]
       = Err e) /\
    (forall L U, ex_eig tj = Ok (L, U) -> dims U = dims tj ->
       exists ctx' eigenvalues q_mat,
         Diagonalization.forward ex_settings ex_lanczos ex_eig ex_ctx
           ex_tree cpu float64 [3; 3]%nat 2 (Some []) [ex_A]
         = Ok (ctx', (eigenvalues, q_mat)) /\
         entries eigenvalues = entries L) /\
    (forall solver : tensor -> result (tensor * tensor),
       solver tj = ex_eig tj ->
       Diagonalization.forward ex_settings ex_lanczos solver ex_ctx
         ex_tree cpu float64 [3; 3]%nat 2 (Some []) [ex_A]
       = Diagonalization.forward ex_settings ex_lanczos ex_eig ex_ctx
           ex_tree cpu float64 [3; 3]%nat 2 (Some []) [ex_A]) /\
    forall bi, in_range bi (leading_dims (Some []) []) = true ->
      exists mu,
        (exists c, (c < 2)%nat /\ mu = mat_at T bi c c) /\
        (forall c, (c < 2)%nat -> mu <= mat_at T bi c c) /\
        forall i j, (i < 2)%nat -> (j < 2)%nat ->
          mat_at tj bi i j
          = mat_at T bi i j
            + (if (i =? j)%nat then tridiagonal_jitter ex_settings * mu else 0).
Proof.
  apply (eigensolver_input_is_T_plus_min_diagonal_jitter ex_settings ex_lanczos ex_eig
           ex_ctx ex_tree cpu float64 [3; 3]%nat 2%nat (Some []) [ex_A] ex_Q0 ex_T 3 1 []);
    reflexivity.
Defined.


Lemma forward_saves_parameters_Q_and_eigenvalues_witness :
  exists ctx' eigenvalues q_mat,
    Diagonalization.forward ex_settings ex_lanczos ex_eig ex_ctx
      ex_tree cpu float64 [3; 3]%nat 2 None [ex_A]
    = Ok (ctx', (eigenvalues, q_mat)) /\
    Diagonalization.saved_tensors ctx' = [ex_A] ++ [q_mat; eigenvalues] /\
    (memory_efficient ex_settings = true ->
     Diagonalization._lazy_tsr ctx' = Diagonalization._lazy_tsr ex_ctx) /\
    forall (other : Diagonalization.context) (pre : list tensor) (dLam dQ : tensor),
      Diagonalization.saved_tensors other = pre ++ [q_mat; eigenvalues] ->
      Diagonalization.backward other dLam dQ = Diagonalization.backward ctx' dLam dQ.
Proof.
  eexists. eexists. eexists. split; [vm_compute; reflexivity|].
  apply (forward_saves_parameters_Q_and_eigenvalues ex_settings ex_lanczos ex_eig
           ex_ctx ex_tree cpu float64 [3; 3]%nat 2%nat None [ex_A]).
  vm_compute. reflexivity.
Defined.

(** ** Equal eigenvalues in the backward pass *)

(** C8 fails on the code: the eigenvalues [0, 0, 1e-10] contain a repeated
    value; the denominator of K[0,1], between the two equal eigenvalues, is
    1e-10, but the denominator of K[0,2] is 0 - 1e-10 + 1e-10 = 0, so the
    reciprocal of line 81 divides by zero at an entry off the diagonal. *)
Theorem kmat_denominator_vanishes_next_to_equal_eigenvalues :
  vec_at ex_Lam_gap [] 0 = vec_at ex_Lam_gap [] 1 /\
  exists den,
    Diagonalization.kmat_denominator ex_Lam_gap = Ok den /\
    mat_at den [] 0 1 = 1e-10 /\
    mat_at den [] 0 2 = 0.
Proof.
  split; [reflexivity|].
  destruct (kmat_denominator_entries ex_Lam_gap 3 [] eq_refl) as (den & H & _ & E).
  exists den. split; [exact H|].
  rewrite (E [] 0%nat 1%nat), (E [] 0%nat 2%nat) by (try lia; reflexivity).
  unfold vec_at, Diagonalization.eps_num. simpl. split; lra.
Qed.

(** ** The Beta likelihood *)

Lemma sigmoid_bounds (x : R) : 0 < torch.sigmoid x < 1.
Proof.
  unfold torch.sigmoid. pose proof (exp_pos (- x)) as He.
  set (e := exp (- x)) in *. split.
  - apply Rdiv_lt_0_compat; lra.
  - apply Rmult_lt_reg_r with (1 + e); [lra|].
    unfold Rdiv. rewrite Rmult_assoc, Rinv_l by lra. lra.
Qed.

Lemma broadcast_dims_absorb (a b d : list nat) :
  torch.broadcast_dims a b = Ok d -> torch.broadcast_dims b d = Ok d.
Proof.
  revert b d. induction a as [|x a IH]; intros b d.
  - intros E. assert (d = b) as -> by (destruct b; simpl in E; congruence).
    apply broadcast_dims_same.
  - destruct b as [|y b]; simpl.
    + intros E. injection E as <-. reflexivity.
    + destruct (torch.broadcast_dims a b) as [r|e] eqn:Hr; cbn [bind]; [|discriminate].
      pose proof (IH b r Hr) as Hbr.
      destruct (Nat.eqb_spec x y) as [->|Hxy].
      * intros E. injection E as <-. simpl. rewrite Hbr. cbn [bind].
        rewrite Nat.eqb_refl. reflexivity.
      * destruct (Nat.eqb_spec x 1) as [->|Hx1].
        { intros E. injection E as <-. simpl. rewrite Hbr. cbn [bind].
          rewrite Nat.eqb_refl. reflexivity. }
        destruct (Nat.eqb_spec y 1) as [->|Hy1]; [|discriminate].
        intros E. injection E as <-. simpl. rewrite Hbr. cbn [bind].
        destruct x as [|[|x]]; try reflexivity; congruence.
Qed.

Lemma bix_broadcast_in_range (a b d ix : list nat) :
  torch.broadcast_dims a b = Ok d -> in_range ix d = true ->
  in_range (torch.bix b ix) b = true.
Proof.
  revert b d ix. induction a as [|x a IH]; intros b d ix.
  - intros E Hix. assert (d = b) as -> by (destruct b; simpl in E; congruence).
    rewrite (bix_in_range _ _ Hix). exact Hix.
  - destruct b as [|y b]; [intros _ _; destruct ix; reflexivity|].
    simpl. destruct (torch.broadcast_dims a b) as [r|e] eqn:Hr; cbn [bind]; [|discriminate].
    intros E Hix.
    assert (Hd : exists z, d = z :: r /\ (y = 1%nat \/ z = y)).
    { destruct (Nat.eqb_spec x y) as [->|Hxy]; [injection E as <-; eauto|].
      destruct (Nat.eqb_spec x 1) as [->|Hx1]; [injection E as <-; eauto|].
      destruct (Nat.eqb_spec y 1) as [->|Hy1]; [injection E as <-; eauto|discriminate]. }
    destruct Hd as (z & -> & Hz). destruct ix as [|i ix]; [discriminate|].
    apply in_range_cons in Hix. destruct Hix as [Hi Hix].
    apply in_range_cons. split; [|apply (IH b r ix Hr Hix)].
    destruct (Nat.eqb_spec y 1); lia.
Qed.

(** ** More on the matrix K *)

(** X1: The denominator of K[i,j] on line 81 is zero exactly when the gap
    Lam[i] - Lam[j] is -1e-10, and it is positive wherever Lam[j] <= Lam[i]. *)
Theorem kmat_denominator_zero_iff_gap_is_minus_eps
    (eigenvalues : tensor) (m : nat) (bs : list nat) :
  dims eigenvalues = m :: bs ->
  exists den,
    Diagonalization.kmat_denominator eigenvalues = Ok den /\
    forall bi i j, (i < m)%nat -> (j < m)%nat -> in_range bi bs = true ->
      (mat_at den bi i j = 0
       <-> vec_at eigenvalues bi i - vec_at eigenvalues bi j = - 1e-10) /\
      (vec_at eigenvalues bi j <= vec_at eigenvalues bi i -> 0 < mat_at den bi i j).
Proof.
  intros H. destruct (kmat_denominator_entries eigenvalues m bs H) as (den & Hden & _ & E).
  exists den. split; [exact Hden|].
  intros bi i j Hi Hj Hb. rewrite (E bi i j Hi Hj Hb).
  unfold Diagonalization.eps_num. split; [split|]; intros; lra.
Qed.

Lemma kmat_denominator_zero_iff_gap_is_minus_eps_witness :
  exists den,
    Diagonalization.kmat_denominator ex_Lam_gap = Ok den /\
    forall bi i j, (i < 3)%nat -> (j < 3)%nat -> in_range bi [] = true ->
      (mat_at den bi i j = 0
       <-> vec_at ex_Lam_gap bi i - vec_at ex_Lam_gap bi j = - 1e-10) /\
      (vec_at ex_Lam_gap bi j <= vec_at ex_Lam_gap bi i -> 0 < mat_at den bi i j).
Proof.
  apply (kmat_denominator_zero_iff_gap_is_minus_eps ex_Lam_gap 3 []). reflexivity.
Defined.

(** X2: Off the diagonal, where Lam[j] <= Lam[i], the entry K[i,j] lies in
    (0, 1/1e-10], and it is 1/1e-10 for a pair of equal eigenvalues. *)
Theorem kmat_bounded_where_gap_is_nonnegative
    (eigenvalues : tensor) (m : nat) (bs : list nat) :
  dims eigenvalues = m :: bs ->
  exists K,
    Diagonalization.kmat eigenvalues = Ok K /\
    forall bi i j, (i < m)%nat -> (j < m)%nat -> in_range bi bs = true -> i <> j ->
      vec_at eigenvalues bi j <= vec_at eigenvalues bi i ->
      0 < mat_at K bi i j <= / 1e-10 /\
      (vec_at eigenvalues bi i = vec_at eigenvalues bi j -> mat_at K bi i j = / 1e-10).
Proof.
  intros H. destruct (kmat_entries eigenvalues m bs H) as (K & HK & _ & E).
  exists K. split; [exact HK|].
  intros bi i j Hi Hj Hb Hne Hle. rewrite (E bi i j Hi Hj Hb).
  destruct (Nat.eqb_spec i j) as [|_]; [contradiction|].
  unfold Diagonalization.eps_num.
  set (gap := vec_at eigenvalues bi i - vec_at eigenvalues bi j).
  assert (Hgap : 0 <= gap) by (unfold gap; lra).
  split; [split|].
  - apply Rinv_0_lt_compat. lra.
  - apply Rinv_le_contravar; lra.
  - intros Heq. f_equal. unfold gap. lra.
Qed.

Lemma kmat_bounded_where_gap_is_nonnegative_witness :
  exists K,
    Diagonalization.kmat ex_Lam_gap = Ok K /\
    forall bi i j, (i < 3)%nat -> (j < 3)%nat -> in_range bi [] = true -> i <> j ->
      vec_at ex_Lam_gap bi j <= vec_at ex_Lam_gap bi i ->
      0 < mat_at K bi i j <= / 1e-10 /\
      (vec_at ex_Lam_gap bi i = vec_at ex_Lam_gap bi j -> mat_at K bi i j = / 1e-10).
Proof.
  apply (kmat_bounded_where_gap_is_nonnegative ex_Lam_gap 3 []). reflexivity.
Defined.

(** ** More on the gradient *)

Lemma spec_term1_zero_gradient (K Q dQ : tensor) (b : list nat) (n m x y : nat) :
  (forall c j, (c < n)%nat -> (j < m)%nat -> mat_at dQ b c j = 0) ->
  spec_term1 K Q dQ b n m x y = 0.
Proof.
  intros H0. unfold spec_term1. apply sum_upto_zero. intros j Hj.
  rewrite sum_upto_zero; [ring|]. intros i _. unfold spec_inner.
  rewrite sum_upto_zero; [ring|]. intros c Hc. rewrite (H0 c j Hc Hj). ring.
Qed.

(** X3: When the upstream gradient of the eigenvectors is zero and no denominator
    Lam[i] - Lam[j] + 1e-10 off the diagonal of K is zero, the backward pass
    returns Q diag(dL/dLam) Q^T alone. *)
Theorem backward_without_eigenvector_gradient
    (ctx : Diagonalization.context) (dLam dQ Q Lam : tensor)
    (pre : list tensor) (n m : nat) (bs : list nat) :
  Diagonalization.saved_tensors ctx = pre ++ [Q; Lam] ->
  dims Q = m :: n :: bs -> dims Lam = m :: bs ->
  dims dQ = m :: n :: bs -> dims dLam = m :: bs ->
  (forall bi c j, (c < n)%nat -> (j < m)%nat -> in_range bi bs = true ->
     mat_at dQ bi c j = 0) ->
  (forall bi i j, (i < m)%nat -> (j < m)%nat -> i <> j -> in_range bi bs = true ->
     vec_at Lam bi i - vec_at Lam bi j + Diagonalization.eps_num <> 0) ->
  exists g,
    Diagonalization.backward ctx dLam dQ = Ok (repeat None 6 ++ [Some g]) /\
    forall bi x y, (x < n)%nat -> (y < n)%nat -> in_range bi bs = true ->
      mat_at g bi x y
      = sum_upto m (fun i => mat_at Q bi x i * vec_at dLam bi i * mat_at Q bi y i).
Proof.
  intros Hs HQ HL HdQ HdL H0 _.
  destruct (backward_steps ctx dLam dQ Q Lam pre n m bs Hs HQ HL HdQ HdL)
    as (K & it & t1 & t2 & g & _ & _ & _ & _ & _ & Hb & _ & E).
  exists g. split; [exact Hb|].
  intros bi x y Hx Hy Hbi.
  assert (Z1 : forall u v, spec_term1 K Q dQ bi n m u v = 0).
  { intros u v. apply spec_term1_zero_gradient. intros c j Hc Hj. apply H0; assumption. }
  rewrite (E bi x y Hx Hy Hbi), !Z1. unfold spec_term2. lra.
Qed.

Lemma backward_without_eigenvector_gradient_witness :
  exists g,
    Diagonalization.backward ex_ctx ex_dLam ex_zero_dQ = Ok (repeat None 6 ++ [Some g]) /\
    forall bi x y, (x < 2)%nat -> (y < 2)%nat -> in_range bi [] = true ->
      mat_at g bi x y
      = sum_upto 2 (fun i => mat_at ex_Q bi x i * vec_at ex_dLam bi i * mat_at ex_Q bi y i).
Proof.
  apply (backward_without_eigenvector_gradient ex_ctx ex_dLam ex_zero_dQ ex_Q ex_Lam
           [ex_Q] 2 2 []); try reflexivity.
  - intros bi c j Hc Hj _.
    destruct c as [|[|c]]; destruct j as [|[|j]]; try lia; reflexivity.
  - intros bi i j Hi Hj Hne _. unfold vec_at, Diagonalization.eps_num.
    destruct i as [|[|i]]; destruct j as [|[|j]]; try lia; simpl; lra.
Defined.

(** X4: With a single eigenpair (one Lanczos iteration) K is the one-by-one zero
    matrix: the eigenvector gradient does not contribute and the backward
    pass returns the rank-one matrix Q[:,0] dL/dLam[0] Q[:,0]^T. *)
Theorem backward_single_eigenpair
    (ctx : Diagonalization.context) (dLam dQ Q Lam : tensor)
    (pre : list tensor) (n : nat) (bs : list nat) :
  Diagonalization.saved_tensors ctx = pre ++ [Q; Lam] ->
  dims Q = 1%nat :: n :: bs -> dims Lam = 1%nat :: bs ->
  dims dQ = 1%nat :: n :: bs -> dims dLam = 1%nat :: bs ->
  exists g,
    Diagonalization.backward ctx dLam dQ = Ok (repeat None 6 ++ [Some g]) /\
    forall bi x y, (x < n)%nat -> (y < n)%nat -> in_range bi bs = true ->
      mat_at g bi x y = mat_at Q bi x 0 * vec_at dLam bi 0 * mat_at Q bi y 0.
Proof.
  intros Hs HQ HL HdQ HdL.
  destruct (backward_steps ctx dLam dQ Q Lam pre n 1 bs Hs HQ HL HdQ HdL)
    as (K & it & t1 & t2 & g & HK & _ & _ & _ & _ & Hb & _ & E).
  destruct (kmat_entries Lam 1 bs HL) as (K' & HK' & _ & EK).
  rewrite HK in HK'. injection HK' as <-.
  exists g. split; [exact Hb|].
  intros bi x y Hx Hy Hbi. rewrite (E bi x y Hx Hy Hbi).
  unfold spec_term1, spec_term2, spec_inner, sum_upto at 1 2 4. simpl.
  rewrite (EK bi 0%nat 0%nat) by (lia || assumption). simpl. ring.
Qed.

Lemma backward_single_eigenpair_witness :
  exists g,
    Diagonalization.backward (with_saved [ex_Q1; ex_Lam1]) ex_dLam1 ex_dQ1
    = Ok (repeat None 6 ++ [Some g]) /\
    forall bi x y, (x < 2)%nat -> (y < 2)%nat -> in_range bi [] = true ->
      mat_at g bi x y = mat_at ex_Q1 bi x 0 * vec_at ex_dLam1 bi 0 * mat_at ex_Q1 bi y 0.
Proof.
  apply (backward_single_eigenpair (with_saved [ex_Q1; ex_Lam1]) ex_dLam1 ex_dQ1
           ex_Q1 ex_Lam1 [] 2 []); reflexivity.
Defined.

(** X6: The backward pass reads the last two saved tensors: on a context with
    fewer than two of them it fails with IndexError. *)
Theorem backward_needs_two_saved_tensors
    (ctx : Diagonalization.context) (evals_grad_output evecs_grad_output : tensor) :
  (length (Diagonalization.saved_tensors ctx) < 2)%nat ->
  Diagonalization.backward ctx evals_grad_output evecs_grad_output = Err IndexError.
Proof.
  intros H. unfold Diagonalization.backward, py_index at 1. cbv zeta.
  destruct (Z.ltb_spec (-2) 0) as [_|]; [|lia].
  set (l := Diagonalization.saved_tensors ctx) in *.
  destruct (Z.leb_spec 0 (Z.of_nat (length l) + -2)) as [Hle|_]; [lia|].
  reflexivity.
Qed.

Lemma backward_needs_two_saved_tensors_witness :
  Diagonalization.backward (with_saved [ex_Q]) ex_dLam ex_dQ = Err IndexError.
Proof.
  apply (backward_needs_two_saved_tensors (with_saved [ex_Q]) ex_dLam ex_dQ).
  simpl. lia.
Defined.

(** ** More on the forward pass *)

Lemma dims_of_shape (t : tensor) (l : list nat) : shape t = l -> dims t = rev l.
Proof. intros <-. unfold shape. rewrite rev_involutive. reflexivity. Qed.

Lemma shape_of_dims (t : tensor) (l : list nat) : dims t = l -> shape t = rev l.
Proof. intros <-. reflexivity. Qed.

Lemma ex_eig_shapes (B : list nat) (tj : tensor) :
  shape tj = B ++ [2; 2]%nat ->
  exists L U, ex_eig tj = Ok (L, U) /\ shape U = shape tj /\ shape L = B ++ [2%nat].
Proof.
  intros H. pose proof (dims_of_shape _ _ H) as Hd.
  rewrite rev_app_distr in Hd. simpl in Hd.
  unfold ex_eig, lazify_diag, torch.expand_as. rewrite Hd. simpl.
  eexists. eexists. split; [reflexivity|]. unfold shape. simpl. rewrite Hd. simpl.
  rewrite rev_involutive. split; reflexivity.
Defined.

(** The steps of [forward] for a batch shape that is not None and a Lanczos
    output with exactly one batch dimension. *)
Lemma forward_one_batch_dim (settings : Settings)
    (lanczos_tridiag : (tensor -> result tensor) -> nat -> dtype -> device -> list nat ->
                       option (list nat) -> result (tensor * tensor))
    (lanczos_tridiag_to_diag : tensor -> result (tensor * tensor))
    (ctx : Diagonalization.context) (representation_tree : list tensor -> LazyTensor)
    (device : device) (dtype : dtype) (matrix_shape : list nat) (max_iter : nat)
    (declared : list nat) (matrix_args : list tensor) (q0 t0 : tensor) (b n k : nat) :
  lanczos_tridiag (_matmul (representation_tree matrix_args)) max_iter dtype device
    matrix_shape (Some declared) = Ok (q0, t0) ->
  shape q0 = [b; n; S k] -> shape t0 = [b; S k; S k] ->
  (forall tj, shape tj = [1%nat; b; S k; S k] ->
     exists L U, lanczos_tridiag_to_diag tj = Ok (L, U) /\
                 shape U = shape tj /\ shape L = [1%nat; b; S k]) ->
  exists ctx' eigenvalues q_mat,
    Diagonalization.forward settings lanczos_tridiag lanczos_tridiag_to_diag ctx
      representation_tree device dtype matrix_shape max_iter (Some declared) matrix_args
    = Ok (ctx', (eigenvalues, q_mat)) /\
    Diagonalization.saved_tensors ctx' = matrix_args ++ [q_mat; eigenvalues] /\
    dims q_mat = [S k; n; b] /\ dims eigenvalues = [S k; b].
Proof.
  intros Hl Hq Ht Heig.
  apply dims_of_shape in Hq, Ht. simpl in Hq, Ht.
  assert (Heig' : forall tj, dims tj = [S k; S k; b; 1]%nat ->
            exists L U, lanczos_tridiag_to_diag tj = Ok (L, U) /\
                        dims U = dims tj /\ dims L = [S k; b; 1]%nat).
  { intros tj Htj. destruct (Heig tj) as (L & U & HLU & HU & HL).
    - unfold shape. rewrite Htj. reflexivity.
    - exists L, U. split; [exact HLU|]. apply dims_of_shape in HL. split; [|exact HL].
      unfold shape in HU. apply (f_equal (@rev nat)) in HU.
      rewrite !rev_involutive in HU. exact HU. }
  destruct (forward_steps settings lanczos_tridiag lanczos_tridiag_to_diag ctx
              representation_tree device dtype matrix_shape max_iter (Some declared)
              matrix_args q0 t0 n k [b] Hl Hq Ht)
    as (q1 & t1 & tj & L & U & QU & q_out & ev_out
        & _ & _ & _ & _ & Htj & HLU & _ & _ & HQU & Hdrop & Hf).
  { intros tj Htj. destruct (Heig' tj Htj) as (L & U & HLU & HU & _). eauto. }
  destruct (Heig' tj Htj) as (L' & U' & HLU' & _ & HL).
  rewrite HLU in HLU'. injection HLU' as <- <-.
  eexists. exists ev_out, q_out. split; [exact Hf|].
  split; [destruct (memory_efficient settings); reflexivity|].
  revert Hdrop. unfold Diagonalization.drop_leading_dims. cbn [bind].
  unfold torch.squeeze, ndimension.
  rewrite HQU, HL. simpl. intros E. injection E as <- <-.
  split; reflexivity.
Qed.

(** X7: With a batch shape that is not None and a Lanczos output of one batch
    dimension b, the dimension added on lines 44-46 is removed again from both
    results: the eigenvalues have shape [b, m] and the eigenvectors
    [b, n, m]. *)
Theorem forward_one_batch_dim_shapes (settings : Settings)
    (lanczos_tridiag : (tensor -> result tensor) -> nat -> dtype -> device -> list nat ->
                       option (list nat) -> result (tensor * tensor))
    (lanczos_tridiag_to_diag : tensor -> result (tensor * tensor))
    (ctx : Diagonalization.context) (representation_tree : list tensor -> LazyTensor)
    (device : device) (dtype : dtype) (matrix_shape : list nat) (max_iter : nat)
    (declared : list nat) (matrix_args : list tensor) (q0 t0 : tensor) (b n k : nat) :
  lanczos_tridiag (_matmul (representation_tree matrix_args)) max_iter dtype device
    matrix_shape (Some declared) = Ok (q0, t0) ->
  shape q0 = [b; n; S k] -> shape t0 = [b; S k; S k] ->
  (forall tj, shape tj = [1%nat; b; S k; S k] ->
     exists L U, lanczos_tridiag_to_diag tj = Ok (L, U) /\
                 shape U = shape tj /\ shape L = [1%nat; b; S k]) ->
  exists ctx' eigenvalues q_mat,
    Diagonalization.forward settings lanczos_tridiag lanczos_tridiag_to_diag ctx
      representation_tree device dtype matrix_shape max_iter (Some declared) matrix_args
    = Ok (ctx', (eigenvalues, q_mat)) /\
    shape eigenvalues = [b; S k] /\ shape q_mat = [b; n; S k].
Proof.
  intros Hl Hq Ht Heig.
  destruct (forward_one_batch_dim settings lanczos_tridiag lanczos_tridiag_to_diag ctx
              representation_tree device dtype matrix_shape max_iter declared matrix_args
              q0 t0 b n k Hl Hq Ht Heig) as (ctx' & ev & q & Hf & _ & Hdq & Hde).
  exists ctx', ev, q. split; [exact Hf|].
  rewrite (shape_of_dims _ _ Hdq), (shape_of_dims _ _ Hde). split; reflexivity.
Qed.

Lemma forward_one_batch_dim_shapes_witness :
  exists ctx' eigenvalues q_mat,
    Diagonalization.forward ex_settings ex_lanczos_batch ex_eig ex_ctx
      ex_tree cpu float64 [1; 3; 3]%nat 2 (Some [1%nat]) [ex_A]
    = Ok (ctx', (eigenvalues, q_mat)) /\
    shape eigenvalues = [1; 2]%nat /\ shape q_mat = [1; 3; 2]%nat.
Proof.
  apply (forward_one_batch_dim_shapes ex_settings ex_lanczos_batch ex_eig ex_ctx ex_tree
           cpu float64 [1; 3; 3]%nat 2%nat [1%nat] [ex_A]
           (mkT [2; 3; 1]%nat (cell ex_Q0)) (mkT [2; 2; 1]%nat (cell ex_T)) 1 3 1);
    try reflexivity.
  intros tj Htj. apply (ex_eig_shapes [1; 1]%nat tj Htj).
Defined.

(** X8: After a forward pass on a batch of b operators, the backward pass on the
    context it leaves, with upstream gradients of the shapes of the two
    results, returns a gradient of shape [b, n, n]. *)
Theorem backward_after_forward_one_batch_dim (settings : Settings)
    (lanczos_tridiag : (tensor -> result tensor) -> nat -> dtype -> device -> list nat ->
                       option (list nat) -> result (tensor * tensor))
    (lanczos_tridiag_to_diag : tensor -> result (tensor * tensor))
    (ctx : Diagonalization.context) (representation_tree : list tensor -> LazyTensor)
    (device : device) (dtype : dtype) (matrix_shape : list nat) (max_iter : nat)
    (declared : list nat) (matrix_args : list tensor) (q0 t0 : tensor) (b n k : nat)
    (evals_grad_output evecs_grad_output : tensor) :
  lanczos_tridiag (_matmul (representation_tree matrix_args)) max_iter dtype device
    matrix_shape (Some declared) = Ok (q0, t0) ->
  shape q0 = [b; n; S k] -> shape t0 = [b; S k; S k] ->
  (forall tj, shape tj = [1%nat; b; S k; S k] ->
     exists L U, lanczos_tridiag_to_diag tj = Ok (L, U) /\
                 shape U = shape tj /\ shape L = [1%nat; b; S k]) ->
  shape evals_grad_output = [b; S k] -> shape evecs_grad_output = [b; n; S k] ->
  exists ctx' eigenvalues q_mat g,
    Diagonalization.forward settings lanczos_tridiag lanczos_tridiag_to_diag ctx
      representation_tree device dtype matrix_shape max_iter (Some declared) matrix_args
    = Ok (ctx', (eigenvalues, q_mat)) /\
    Diagonalization.backward ctx' evals_grad_output evecs_grad_output
    = Ok (repeat None 6 ++ [Some g]) /\
    shape g = [b; n; n].
Proof.
  intros Hl Hq Ht Heig HgL HgQ.
  destruct (forward_one_batch_dim settings lanczos_tridiag lanczos_tridiag_to_diag ctx
              representation_tree device dtype matrix_shape max_iter declared matrix_args
              q0 t0 b n k Hl Hq Ht Heig) as (ctx' & ev & q & Hf & Hs & Hdq & Hde).
  apply dims_of_shape in HgL, HgQ. simpl in HgL, HgQ.
  destruct (backward_steps ctx' evals_grad_output evecs_grad_output q ev matrix_args
              n (S k) [b] Hs Hdq Hde HgQ HgL)
    as (K & it & t1 & t2 & g & _ & _ & _ & _ & _ & Hb & Hd & _).
  exists ctx', ev, q, g. split; [exact Hf|]. split; [exact Hb|].
  rewrite (shape_of_dims _ _ Hd). reflexivity.
Qed.

Lemma backward_after_forward_one_batch_dim_witness :
  exists ctx' eigenvalues q_mat g,
    Diagonalization.forward ex_settings ex_lanczos_batch ex_eig ex_ctx
      ex_tree cpu float64 [1; 3; 3]%nat 2 (Some [1%nat]) [ex_A]
    = Ok (ctx', (eigenvalues, q_mat)) /\
    Diagonalization.backward ctx' (mkT [2; 1]%nat (fun _ => 1)) (mkT [2; 3; 1]%nat (fun _ => 1))
    = Ok (repeat None 6 ++ [Some g]) /\
    shape g = [1; 3; 3]%nat.
Proof.
  apply (backward_after_forward_one_batch_dim ex_settings ex_lanczos_batch ex_eig ex_ctx
           ex_tree cpu float64 [1; 3; 3]%nat 2%nat [1%nat] [ex_A]
           (mkT [2; 3; 1]%nat (cell ex_Q0)) (mkT [2; 2; 1]%nat (cell ex_T)) 1 3 1);
    try reflexivity.
  intros tj Htj. apply (ex_eig_shapes [1; 1]%nat tj Htj).
Defined.

Lemma squeeze_0_list (l : list nat) :
  let p := (Nat.max (length l) 1 - 1 - Z.to_nat 0)%nat in
  rev (if (nth p l 0 =? 1)%nat then del p l else l) = drop_leading_one (rev l).
Proof.
  intros p. subst p.
  destruct (rev l) as [|x rest] eqn:Hr;
    apply (f_equal (@rev nat)) in Hr; rewrite rev_involutive in Hr; simpl in Hr; subst l.
  - reflexivity.
  - rewrite length_app, length_rev. simpl length.
    replace (Nat.max (length rest + 1) 1 - 1 - Z.to_nat 0)%nat with (length (rev rest))
      by (rewrite length_rev; lia).
    rewrite nth_middle.
    destruct (Nat.eqb_spec x 1) as [->|Hx].
    + unfold del. rewrite firstn_app, firstn_all, Nat.sub_diag.
      rewrite skipn_all2 by (rewrite length_app; simpl; lia).
      simpl. rewrite !app_nil_r. apply rev_involutive.
    + rewrite rev_app_distr, rev_involutive. simpl.
      destruct x as [|[|x]]; try reflexivity. congruence.
Qed.

Lemma squeeze_0_shape (t : tensor) :
  exists r, torch.squeeze 0 t = Ok r /\ shape r = drop_leading_one (shape t).
Proof.
  unfold torch.squeeze. rewrite wrap_dim_pos by lia. cbn [bind].
  eexists. split; [reflexivity|].
  unfold shape, ndimension. rewrite <- (squeeze_0_list (dims t)). cbv zeta.
  destruct (nth _ (dims t) 0 =? 1)%nat; reflexivity.
Qed.

(** X9: With a batch shape that is not None and a Lanczos output whose number of
    batch dimensions is not one, nothing is added on lines 41-46 but lines
    62-63 still squeeze dimension 0: both results lose their first dimension
    exactly when its size is 1. *)
Theorem forward_squeezes_a_leading_batch_dim_of_size_one (settings : Settings)
    (lanczos_tridiag : (tensor -> result tensor) -> nat -> dtype -> device -> list nat ->
                       option (list nat) -> result (tensor * tensor))
    (lanczos_tridiag_to_diag : tensor -> result (tensor * tensor))
    (ctx : Diagonalization.context) (representation_tree : list tensor -> LazyTensor)
    (device : device) (dtype : dtype) (matrix_shape : list nat) (max_iter : nat)
    (declared : list nat) (matrix_args : list tensor) (q0 t0 : tensor)
    (B : list nat) (n k : nat) :
  lanczos_tridiag (_matmul (representation_tree matrix_args)) max_iter dtype device
    matrix_shape (Some declared) = Ok (q0, t0) ->
  shape q0 = B ++ [n; S k] -> shape t0 = B ++ [S k; S k] -> length B <> 1%nat ->
  (forall tj, shape tj = B ++ [S k; S k] ->
     exists L U, lanczos_tridiag_to_diag tj = Ok (L, U) /\
                 shape U = shape tj /\ shape L = B ++ [S k]) ->
  exists ctx' eigenvalues q_mat,
    Diagonalization.forward settings lanczos_tridiag lanczos_tridiag_to_diag ctx
      representation_tree device dtype matrix_shape max_iter (Some declared) matrix_args
    = Ok (ctx', (eigenvalues, q_mat)) /\
    shape eigenvalues = drop_leading_one (B ++ [S k]) /\
    shape q_mat = drop_leading_one (B ++ [n; S k]).
Proof.
  intros Hl Hq Ht HB Heig.
  apply dims_of_shape in Hq, Ht. rewrite rev_app_distr in Hq, Ht. simpl in Hq, Ht.
  assert (Hlead : leading_dims (Some declared) (rev B) = rev B).
  { unfold leading_dims. rewrite length_rev.
    destruct (Nat.eqb_spec (length B) 1); [contradiction|reflexivity]. }
  assert (Heig' : forall tj, dims tj = S k :: S k :: rev B ->
            exists L U, lanczos_tridiag_to_diag tj = Ok (L, U) /\
                        dims U = dims tj /\ shape L = B ++ [S k]).
  { intros tj Htj. destruct (Heig tj) as (L & U & HLU & HU & HL).
    - unfold shape. rewrite Htj. simpl. rewrite rev_involutive, <- app_assoc. reflexivity.
    - exists L, U. split; [exact HLU|]. split; [|exact HL].
      unfold shape in HU. apply (f_equal (@rev nat)) in HU.
      rewrite !rev_involutive in HU. exact HU. }
  destruct (forward_steps settings lanczos_tridiag lanczos_tridiag_to_diag ctx
              representation_tree device dtype matrix_shape max_iter (Some declared)
              matrix_args q0 t0 n k (rev B) Hl Hq Ht)
    as (q1 & t1 & tj & L & U & QU & q_out & ev_out
        & _ & _ & _ & _ & Htj & HLU & _ & _ & HQU & Hdrop & Hf).
  { rewrite Hlead. intros tj Htj. destruct (Heig' tj Htj) as (L & U & HLU & HU & _). eauto. }
  rewrite Hlead in Htj, HQU.
  destruct (Heig' tj Htj) as (L' & U' & HLU' & _ & HL).
  rewrite HLU in HLU'. injection HLU' as <- <-.
  eexists. exists ev_out, q_out. split; [exact Hf|].
  revert Hdrop. unfold Diagonalization.drop_leading_dims. cbn [bind].
  destruct (squeeze_0_shape QU) as (q' & -> & Hq'). cbn [bind].
  destruct (squeeze_0_shape L) as (e' & -> & He'). cbn [bind].
  intros E. injection E as <- <-.
  rewrite He', Hq', HL. split; [reflexivity|].
  unfold shape. rewrite HQU. simpl. rewrite rev_involutive, <- app_assoc. reflexivity.
Qed.

Lemma forward_squeezes_a_leading_batch_dim_of_size_one_witness :
  exists ctx' eigenvalues q_mat,
    Diagonalization.forward ex_settings ex_lanczos_batch2 ex_eig ex_ctx
      ex_tree cpu float64 [1; 2; 3; 3]%nat 2 (Some [1; 2]%nat) [ex_A]
    = Ok (ctx', (eigenvalues, q_mat)) /\
    shape eigenvalues = drop_leading_one ([1; 2] ++ [2])%nat /\
    shape q_mat = drop_leading_one ([1; 2] ++ [3; 2])%nat.
Proof.
  apply (forward_squeezes_a_leading_batch_dim_of_size_one ex_settings ex_lanczos_batch2
           ex_eig ex_ctx ex_tree cpu float64 [1; 2; 3; 3]%nat 2%nat [1; 2]%nat [ex_A]
           (mkT [2; 3; 2; 1]%nat (cell ex_Q0)) (mkT [2; 2; 2; 1]%nat (cell ex_T))
           [1; 2]%nat 3 1); try reflexivity.
  - simpl. lia.
  - intros tj Htj. apply (ex_eig_shapes [1; 2]%nat tj Htj).
Defined.

(** X10: A forward pass that returns leaves its six non-tensor arguments on the
    context and, with memory_efficient off, the lazy tensor built from the
    parameter tensors. *)
Theorem forward_sets_context_attributes (settings : Settings)
    (lanczos_tridiag : (tensor -> result tensor) -> nat -> dtype -> device -> list nat ->
                       option (list nat) -> result (tensor * tensor))
    (lanczos_tridiag_to_diag : tensor -> result (tensor * tensor))
    (ctx : Diagonalization.context) (representation_tree : list tensor -> LazyTensor)
    (device : device) (dtype : dtype) (matrix_shape : list nat) (max_iter : nat)
    (batch_shape : option (list nat)) (matrix_args : list tensor)
    (ctx' : Diagonalization.context) (eigenvalues q_mat : tensor) :
  Diagonalization.forward settings lanczos_tridiag lanczos_tridiag_to_diag ctx
    representation_tree device dtype matrix_shape max_iter batch_shape matrix_args
  = Ok (ctx', (eigenvalues, q_mat)) ->
  Diagonalization.representation_tree ctx' = representation_tree /\
  Diagonalization.device_ ctx' = device /\
  Diagonalization.dtype_ ctx' = dtype /\
  Diagonalization.matrix_shape ctx' = matrix_shape /\
  Diagonalization.max_iter ctx' = max_iter /\
  Diagonalization.batch_shape ctx' = batch_shape /\
  (memory_efficient settings = false ->
   Diagonalization._lazy_tsr ctx' = Some (representation_tree matrix_args)).
Proof.
  unfold Diagonalization.forward. ctx_fields.
  destruct (lanczos_tridiag _ _ _ _ _ _) as [qt|e]; cbn [bind]; [|discriminate].
  destruct (Diagonalization.add_leading_dims _ _) as [[q1 t1]|e]; cbn [bind]; [|discriminate].
  destruct (Diagonalization.jittered _ _) as [tj|e]; cbn [bind]; [|discriminate].
  destruct (lanczos_tridiag_to_diag tj) as [[L U]|e]; cbn [bind]; [|discriminate].
  destruct (torch.matmul q1 U) as [QU|e]; cbn [bind]; [|discriminate].
  destruct (memory_efficient settings) eqn:Hm; cbn [negb];
    cbn [Diagonalization.batch_shape Diagonalization.set_lazy_tsr];
    (destruct (Diagonalization.drop_leading_dims batch_shape QU L) as [[q' e']|e];
     cbn [bind]; [|discriminate]);
    intros E; injection E as <- <- <-;
    repeat (split; [reflexivity|]); intros; (reflexivity || discriminate).
Qed.

Lemma forward_sets_context_attributes_witness :
  exists ctx' eigenvalues q_mat,
    Diagonalization.forward ex_settings_keep ex_lanczos ex_eig ex_ctx
      ex_tree cpu float32 [3; 3]%nat 5 None [ex_A]
    = Ok (ctx', (eigenvalues, q_mat)) /\
    Diagonalization.representation_tree ctx' = ex_tree /\
    Diagonalization.device_ ctx' = cpu /\
    Diagonalization.dtype_ ctx' = float32 /\
    Diagonalization.matrix_shape ctx' = [3; 3]%nat /\
    Diagonalization.max_iter ctx' = 5%nat /\
    Diagonalization.batch_shape ctx' = None /\
    (memory_efficient ex_settings_keep = false ->
     Diagonalization._lazy_tsr ctx' = Some (ex_tree [ex_A])).
Proof.
  eexists. eexists. eexists. split; [vm_compute; reflexivity|].
  eapply (forward_sets_context_attributes ex_settings_keep ex_lanczos ex_eig ex_ctx
            ex_tree cpu float32 [3; 3]%nat 5%nat None [ex_A]).
  vm_compute. reflexivity.
Defined.



(** ** More on the jitter *)

(** X12: When the smallest diagonal entry of a batch element of T is zero, no
    jitter is added to it: the eigensolver receives that matrix unchanged. *)
Theorem jitter_vanishes_when_min_diagonal_is_zero (settings : Settings)
    (t_mat : tensor) (k : nat) (B bi : list nat) :
  dims t_mat = S k :: S k :: B -> in_range bi B = true ->
  (forall c, (c < S k)%nat -> 0 <= mat_at t_mat bi c c) ->
  (exists c, (c < S k)%nat /\ mat_at t_mat bi c c = 0) ->
  exists tj,
    Diagonalization.jittered settings t_mat = Ok tj /\
    forall i j, (i < S k)%nat -> (j < S k)%nat -> mat_at tj bi i j = mat_at t_mat bi i j.
Proof.
  intros H Hb Hnn (c0 & Hc0 & Hz).
  destruct (jittered_entries settings t_mat k B H) as (tj & Hj & _ & E).
  exists tj. split; [exact Hj|]. intros i j Hi Hj'.
  rewrite (E bi i j Hi Hj' Hb).
  destruct (diag_min_spec t_mat bi k) as ((c1 & Hc1 & Hmin) & Hle).
  assert (Hmu : diag_min t_mat bi k = 0).
  { pose proof (Hle c0 Hc0) as H1. pose proof (Hnn c1 Hc1) as H2. lra. }
  rewrite Hmu. destruct (i =? j)%nat; lra.
Qed.

Lemma jitter_vanishes_when_min_diagonal_is_zero_witness :
  exists tj,
    Diagonalization.jittered ex_settings ex_T_zero = Ok tj /\
    forall i j, (i < 2)%nat -> (j < 2)%nat -> mat_at tj [] i j = mat_at ex_T_zero [] i j.
Proof.
  apply (jitter_vanishes_when_min_diagonal_is_zero ex_settings ex_T_zero 1 [] []);
    try reflexivity.
  - intros c Hc. destruct c as [|[|c]]; try lia; unfold mat_at; simpl; lra.
  - exists 0%nat. split; [lia|reflexivity].
Defined.

(** X13: For a jitter coefficient that is not negative the diagonal shift has the
    sign of the smallest diagonal entry: no diagonal entry shrinks when no
    diagonal entry is negative, and none grows when one of them is negative
    or zero; the entries off the diagonal never change. *)
Theorem jitter_shifts_diagonal_by_sign_of_min (settings : Settings)
    (t_mat : tensor) (k : nat) (B bi : list nat) :
  dims t_mat = S k :: S k :: B -> in_range bi B = true ->
  0 <= tridiagonal_jitter settings ->
  exists tj,
    Diagonalization.jittered settings t_mat = Ok tj /\
    (forall i j, (i < S k)%nat -> (j < S k)%nat -> i <> j ->
       mat_at tj bi i j = mat_at t_mat bi i j) /\
    ((forall c, (c < S k)%nat -> 0 <= mat_at t_mat bi c c) ->
     forall i, (i < S k)%nat -> mat_at t_mat bi i i <= mat_at tj bi i i) /\
    ((exists c, (c < S k)%nat /\ mat_at t_mat bi c c <= 0) ->
     forall i, (i < S k)%nat -> mat_at tj bi i i <= mat_at t_mat bi i i).
Proof.
  intros H Hb Hjit.
  destruct (jittered_entries settings t_mat k B H) as (tj & Hj & _ & E).
  destruct (diag_min_spec t_mat bi k) as ((c1 & Hc1 & Hmin) & Hle).
  exists tj. split; [exact Hj|]. split; [|split].
  - intros i j Hi Hj' Hne. rewrite (E bi i j Hi Hj' Hb).
    destruct (Nat.eqb_spec i j); [contradiction|lra].
  - intros Hpos i Hi. rewrite (E bi i i Hi Hi Hb), Nat.eqb_refl.
    pose proof (Hpos c1 Hc1) as H1. rewrite <- Hmin in H1.
    pose proof (Rmult_le_pos _ _ Hjit H1). lra.
  - intros (c0 & Hc0 & Hneg) i Hi. rewrite (E bi i i Hi Hi Hb), Nat.eqb_refl.
    pose proof (Hle c0 Hc0) as H1.
    assert (H2 : 0 <= tridiagonal_jitter settings * (- diag_min t_mat bi k))
      by (apply Rmult_le_pos; lra).
    lra.
Qed.

Lemma jitter_shifts_diagonal_by_sign_of_min_witness :
  exists tj,
    Diagonalization.jittered ex_settings ex_T_negative = Ok tj /\
    (forall i j, (i < 2)%nat -> (j < 2)%nat -> i <> j ->
       mat_at tj [] i j = mat_at ex_T_negative [] i j) /\
    ((forall c, (c < 2)%nat -> 0 <= mat_at ex_T_negative [] c c) ->
     forall i, (i < 2)%nat -> mat_at ex_T_negative [] i i <= mat_at tj [] i i) /\
    ((exists c, (c < 2)%nat /\ mat_at ex_T_negative [] c c <= 0) ->
     forall i, (i < 2)%nat -> mat_at tj [] i i <= mat_at ex_T_negative [] i i).
Proof.
  apply (jitter_shifts_diagonal_by_sign_of_min ex_settings ex_T_negative 1 [] []);
    try reflexivity.
  simpl. lra.
Defined.

(** ** More on the Beta likelihood *)






(** ** What the forward pass returns does not depend on what it retains *)

Lemma jittered_depends_on_jitter_only (s1 s2 : Settings) (t_mat : tensor) :
  tridiagonal_jitter s1 = tridiagonal_jitter s2 ->
  Diagonalization.jittered s1 t_mat = Diagonalization.jittered s2 t_mat.
Proof.
  intros H. unfold Diagonalization.jittered, Diagonalization.jitter_mat. rewrite H.
  reflexivity.
Qed.

(** X14: The pair (eigenvalues, eigenvectors) returned by the forward pass, or the
    error it raises, is the same whatever the memory_efficient flag and the
    incoming context are. *)
Theorem forward_result_independent_of_memory_efficient (s1 s2 : Settings)
    (lanczos_tridiag : (tensor -> result tensor) -> nat -> dtype -> device -> list nat ->
                       option (list nat) -> result (tensor * tensor))
    (lanczos_tridiag_to_diag : tensor -> result (tensor * tensor))
    (ctx1 ctx2 : Diagonalization.context) (representation_tree : list tensor -> LazyTensor)
    (device : device) (dtype : dtype) (matrix_shape : list nat) (max_iter : nat)
    (batch_shape : option (list nat)) (matrix_args : list tensor) :
  tridiagonal_jitter s1 = tridiagonal_jitter s2 ->
  returned (Diagonalization.forward s1 lanczos_tridiag lanczos_tridiag_to_diag ctx1
              representation_tree device dtype matrix_shape max_iter batch_shape matrix_args)
  = returned (Diagonalization.forward s2 lanczos_tridiag lanczos_tridiag_to_diag ctx2
                representation_tree device dtype matrix_shape max_iter batch_shape
                matrix_args).
Proof.
  intros H. unfold Diagonalization.forward. ctx_fields.
  destruct (lanczos_tridiag _ _ _ _ _ _) as [qt|e]; cbn [bind]; [|reflexivity].
  destruct (Diagonalization.add_leading_dims _ _) as [[q1 t1]|e]; cbn [bind]; [|reflexivity].
  rewrite (jittered_depends_on_jitter_only s1 s2 t1 H).
  destruct (Diagonalization.jittered s2 t1) as [tj|e]; cbn [bind]; [|reflexivity].
  destruct (lanczos_tridiag_to_diag tj) as [[L U]|e]; cbn [bind]; [|reflexivity].
  destruct (torch.matmul q1 U) as [QU|e]; cbn [bind]; [|reflexivity].
  destruct (memory_efficient s1), (memory_efficient s2); cbn [negb];
    cbn [Diagonalization.batch_shape Diagonalization.set_lazy_tsr];
    (destruct (Diagonalization.drop_leading_dims batch_shape QU L) as [[q' e']|e];
     cbn [bind]; reflexivity).
Qed.

Lemma forward_result_independent_of_memory_efficient_witness :
  returned (Diagonalization.forward ex_settings ex_lanczos ex_eig ex_ctx
              ex_tree cpu float64 [3; 3]%nat 2 None [ex_A])
  = returned (Diagonalization.forward ex_settings_keep ex_lanczos ex_eig (with_saved [])
                ex_tree cpu float64 [3; 3]%nat 2 None [ex_A]).
Proof.
  apply (forward_result_independent_of_memory_efficient ex_settings ex_settings_keep
           ex_lanczos ex_eig ex_ctx (with_saved []) ex_tree cpu float64 [3; 3]%nat 2%nat
           None [ex_A]).
  reflexivity.
Defined.

(** ** The batch dimensions of the outputs *)

(** C6 fails on the code: for the declared batch shape (1, 2) the Lanczos
    stage returns tensors of shapes [1, 2, 3, 2] and [1, 2, 2, 2]; lines
    44-46 add no dimension to tensors of rank 4, but the squeezes of lines 62
    and 63 are not guarded and remove the leading batch dimension of size 1: the
    eigenvalues come back with shape [2, 2] and the eigenvectors with shape
    [2, 3, 2], of batch shape (2) instead of the declared (1, 2). *)
Theorem forward_batch_shape_1_2_returns_batch_shape_2 :
  exists ctx' eigenvalues q_mat,
    Diagonalization.forward ex_settings ex_lanczos_batch2 ex_eig ex_ctx
      ex_tree cpu float64 [3; 3]%nat 2 (Some [1; 2]%nat) [ex_A_batch2]
    = Ok (ctx', (eigenvalues, q_mat)) /\
    shape eigenvalues = [2; 2]%nat /\
    shape q_mat = [2; 3; 2]%nat /\
    batch_dims 1 eigenvalues = [2]%nat /\
    batch_dims 2 q_mat = [2]%nat /\
    batch_dims 1 eigenvalues <> [1; 2]%nat /\
    batch_dims 2 q_mat <> [1; 2]%nat.
Proof.
  eexists. eexists. eexists.
  split; [vm_compute; reflexivity|].
  repeat split; try reflexivity; discriminate.
Qed.

(** ** The exceptions of the forward pass *)














(** ** The concentrations of the Beta likelihood *)

Lemma indices_in_range (d ix : list nat) : In ix (indices d) -> in_range ix d = true.
Proof.
  revert ix. induction d as [|n d IH]; intros ix; simpl.
  - intros [<-|[]]. reflexivity.
  - rewrite in_flat_map. intros (rest & Hrest & Hix).
    apply in_map_iff in Hix. destruct Hix as (i & <- & Hi).
    apply in_seq in Hi. apply in_range_cons. split; [lia|]. apply IH, Hrest.
Qed.

Lemma existsb_zero_false (d : list nat) : ~ In 0%nat d -> existsb (Nat.eqb 0) d = false.
Proof.
  intros H. destruct (existsb (Nat.eqb 0) d) eqn:E; [|reflexivity].
  apply existsb_exists in E. destruct E as (x & Hx & Hx0).
  apply Nat.eqb_eq in Hx0. subst x. contradiction.
Qed.

Lemma positive_true (x : R) : rounded.positive x = true <-> 0 < x.
Proof.
  unfold rounded.positive. destruct (Rlt_dec 0 x); split; intros H;
    try reflexivity; try assumption; try discriminate; contradiction.
Qed.

(** Exact arithmetic: the rounded concentrations with [rnd x = x] are the
    concentrations of [BetaLikelihood.forward]. *)
Lemma forward_is_exact_concentrations (self : BetaLikelihood.BetaLikelihood)
    (function_samples : tensor) :
  BetaLikelihood.forward self function_samples
  = (' (alpha, beta) <-
       rounded.concentrations (fun x => x) torch.sigmoid self function_samples ;;
     Ok {| BetaLikelihood.concentration1 := alpha;
           BetaLikelihood.concentration0 := beta |}).
Proof.
  unfold BetaLikelihood.forward, rounded.concentrations, rounded.mul, rounded.sub,
    torch.mul, torch.sub, torch.pointwise2.
  cbn [dims torch.pointwise1 rounded.add_scalar torch.add_scalar].
  destruct (torch.broadcast_dims (dims function_samples)
              (dims (BetaLikelihood.scale self))) as [d|e]; cbn [bind dims]; [|reflexivity].
  destruct (torch.broadcast_dims (dims (BetaLikelihood.scale self)) d) as [d'|e];
    cbn [bind]; reflexivity.
Qed.

Lemma rounded_concentrations_entries (rnd sigmoid : R -> R)
    (self : BetaLikelihood.BetaLikelihood) (function_samples : tensor) (d : list nat) :
  torch.broadcast_dims (dims function_samples) (dims (BetaLikelihood.scale self)) = Ok d ->
  exists alpha beta,
    rounded.concentrations rnd sigmoid self function_samples = Ok (alpha, beta) /\
    dims alpha = d /\ dims beta = d /\
    forall ix, in_range ix d = true ->
      cell alpha ix
      = rnd (rnd (sigmoid (cell function_samples (torch.bix (dims function_samples) ix))
                  * cell (BetaLikelihood.scale self)
                      (torch.bix (dims (BetaLikelihood.scale self)) ix)) + 1) /\
      cell beta ix
      = rnd (rnd (cell (BetaLikelihood.scale self)
                    (torch.bix (dims (BetaLikelihood.scale self)) ix) - cell alpha ix) + 2).
Proof.
  intros Hd. unfold rounded.concentrations, rounded.mul, rounded.sub, torch.pointwise2.
  cbn [dims torch.pointwise1 rounded.add_scalar]. rewrite Hd. cbn [bind dims].
  rewrite (broadcast_dims_absorb _ _ _ Hd). cbn [bind].
  eexists. eexists. split; [reflexivity|]. split; [reflexivity|]. split; [reflexivity|].
  intros ix Hix. unfold rounded.add_scalar, torch.pointwise1. cbn [cell].
  rewrite (bix_in_range d ix Hix). split; reflexivity.
Qed.

Lemma Beta_init_same_dims (alpha beta : tensor) (d : list nat) :
  dims alpha = d -> dims beta = d -> ~ In 0%nat d ->
  ((forall ix, in_range ix d = true -> 0 < cell alpha ix /\ 0 < cell beta ix) ->
   exists c1 c0,
     rounded.Beta_init alpha beta
     = Ok {| BetaLikelihood.concentration1 := c1; BetaLikelihood.concentration0 := c0 |} /\
     dims c1 = d /\ dims c0 = d /\
     forall ix, in_range ix d = true ->
       cell c1 ix = cell alpha ix /\ cell c0 ix = cell beta ix) /\
  ((exists ix, in_range ix d = true /\ (cell alpha ix <= 0 \/ cell beta ix <= 0)) ->
   rounded.Beta_init alpha beta = Err ValueError).
Proof.
  intros Ha Hb Hne. unfold rounded.Beta_init. rewrite Ha, Hb, broadcast_dims_same.
  cbn [bind]. rewrite (existsb_zero_false d Hne). cbn [cell]. split.
  - intros Hpos.
    assert (Hall : forallb
              (fun ix => rounded.positive (cell alpha (torch.bix d ix))
                         && rounded.positive (cell beta (torch.bix d ix))) (indices d) = true).
    { apply forallb_forall. intros ix Hix. apply indices_in_range in Hix.
      rewrite (bix_in_range d ix Hix). destruct (Hpos ix Hix) as [H1 H0].
      apply andb_true_intro. split; apply positive_true; assumption. }
    rewrite Hall. eexists. eexists. split; [reflexivity|].
    split; [reflexivity|]. split; [reflexivity|].
    intros ix Hix. cbn [cell]. rewrite (bix_in_range d ix Hix). split; reflexivity.
  - intros (ix & Hix & Hbad).
    destruct (forallb _ (indices d)) eqn:Hall; [|reflexivity].
    exfalso. rewrite forallb_forall in Hall.
    assert (Hin : In ix (indices d)).
    { clear - Hix. revert ix Hix. induction d as [|n d IH]; intros ix Hix.
      - destruct ix; [left; reflexivity|discriminate].
      - destruct ix as [|i ix]; [discriminate|]. apply in_range_cons in Hix.
        destruct Hix as [Hi Hix]. simpl. apply in_flat_map. exists ix.
        split; [apply IH, Hix|]. apply in_map_iff. exists i.
        split; [reflexivity|apply in_seq; lia]. }
    specialize (Hall ix Hin). rewrite (bix_in_range d ix Hix) in Hall.
    apply andb_prop in Hall. destruct Hall as [H1 H0].
    apply positive_true in H1. apply positive_true in H0. lra.
Qed.

(** C10, amended: in floating point the sigmoid takes its values in the
    closed interval [0, 1] and every operation rounds.  For every
    function_samples and every positive scale s, forward hands to the Beta
    constructor concentration1 = m s + 1 and concentration0 =
    s - concentration1 + 2 as the format computes them, with
    m = sigmoid(function_samples); concentration1 is at least 1, under any
    monotone rounding that keeps 0 and 1; where the four operations of an
    entry are exact, concentration0 = (1 - m) s + 1 is at least 1 and the
    two add up to s + 2.  On an input with entries forward returns the Beta
    distribution of these concentrations when every concentration0 is
    positive, and fails with ValueError when one is not. *)
Theorem beta_forward_concentrations_at_least_one
    (rnd sigmoid : R -> R) (self : BetaLikelihood.BetaLikelihood)
    (function_samples : tensor) (d : list nat) :
  (forall x y, x <= y -> rnd x <= rnd y) -> rnd 0 = 0 -> rnd 1 = 1 ->
  (forall x, 0 <= sigmoid x <= 1) ->
  torch.broadcast_dims (dims function_samples) (dims (BetaLikelihood.scale self)) = Ok d ->
  (forall ix, in_range ix (dims (BetaLikelihood.scale self)) = true ->
     0 < cell (BetaLikelihood.scale self) ix) ->
  exists alpha beta,
    rounded.concentrations rnd sigmoid self function_samples = Ok (alpha, beta) /\
    rounded.forward rnd sigmoid self function_samples = rounded.Beta_init alpha beta /\
    dims alpha = d /\ dims beta = d /\
    (forall ix, in_range ix d = true ->
       let m := sigmoid (cell function_samples (torch.bix (dims function_samples) ix)) in
       let s := cell (BetaLikelihood.scale self)
                  (torch.bix (dims (BetaLikelihood.scale self)) ix) in
       cell alpha ix = rnd (rnd (m * s) + 1) /\
       cell beta ix = rnd (rnd (s - cell alpha ix) + 2) /\
       1 <= cell alpha ix /\
       (rnd (m * s) = m * s -> rnd (m * s + 1) = m * s + 1 ->
        rnd (s - (m * s + 1)) = s - (m * s + 1) ->
        rnd (s - (m * s + 1) + 2) = s - (m * s + 1) + 2 ->
        cell alpha ix = m * s + 1 /\
        cell beta ix = (1 - m) * s + 1 /\
        1 <= cell beta ix /\
        cell alpha ix + cell beta ix = s + 2)) /\
    (~ In 0%nat d ->
     (forall ix, in_range ix d = true -> 0 < cell beta ix) ->
     exists c1 c0,
       rounded.forward rnd sigmoid self function_samples
       = Ok {| BetaLikelihood.concentration1 := c1; BetaLikelihood.concentration0 := c0 |} /\
       dims c1 = d /\ dims c0 = d /\
       forall ix, in_range ix d = true ->
         cell c1 ix = cell alpha ix /\ cell c0 ix = cell beta ix) /\
    (~ In 0%nat d ->
     (exists ix, in_range ix d = true /\ cell beta ix <= 0) ->
     rounded.forward rnd sigmoid self function_samples = Err ValueError).
Proof.
  intros Hmono H0 H1 Hsig Hd Hpos.
  destruct (rounded_concentrations_entries rnd sigmoid self function_samples d Hd)
    as (alpha & beta & Hc & Ha & Hb & E).
  assert (Hf : rounded.forward rnd sigmoid self function_samples
               = rounded.Beta_init alpha beta).
  { unfold rounded.forward. rewrite Hc. reflexivity. }
  assert (Hal : forall ix, in_range ix d = true -> 1 <= cell alpha ix).
  { intros ix Hix. destruct (E ix Hix) as [Ea _]. rewrite Ea.
    set (m := sigmoid (cell function_samples (torch.bix (dims function_samples) ix))).
    set (s := cell (BetaLikelihood.scale self)
                (torch.bix (dims (BetaLikelihood.scale self)) ix)).
    assert (Hs : 0 < s) by (apply Hpos; apply (bix_broadcast_in_range _ _ _ _ Hd Hix)).
    assert (Hm : 0 <= m <= 1) by apply Hsig.
    assert (Hms : 0 <= m * s) by (apply Rmult_le_pos; lra).
    rewrite <- H1 at 1. apply Hmono.
    apply Hmono in Hms. rewrite H0 in Hms. lra. }
  exists alpha, beta. split; [exact Hc|]. split; [exact Hf|].
  split; [exact Ha|]. split; [exact Hb|]. split; [|split].
  - intros ix Hix m s. destruct (E ix Hix) as [Ea Eb]. fold m s in Ea, Eb.
    split; [exact Ea|]. split; [exact Eb|]. split; [apply Hal, Hix|].
    intros X1 X2 X3 X4.
    assert (Hs : 0 < s) by (apply Hpos; apply (bix_broadcast_in_range _ _ _ _ Hd Hix)).
    assert (Hm : 0 <= m <= 1) by apply Hsig.
    assert (Ea' : cell alpha ix = m * s + 1) by (rewrite Ea, X1, X2; reflexivity).
    assert (Eb' : cell beta ix = s - (m * s + 1) + 2) by (rewrite Eb, Ea', X3, X4; reflexivity).
    assert (Hms : 0 <= (1 - m) * s) by (apply Rmult_le_pos; lra).
    split; [exact Ea'|]. rewrite Eb', Ea'. repeat split; lra.
  - intros Hne Hbpos. rewrite Hf.
    apply (proj1 (Beta_init_same_dims alpha beta d Ha Hb Hne)).
    intros ix Hix. split; [|apply Hbpos, Hix]. pose proof (Hal ix Hix). lra.
  - intros Hne (ix & Hix & Hbad). rewrite Hf.
    apply (proj2 (Beta_init_same_dims alpha beta d Ha Hb Hne)).
    exists ix. split; [exact Hix|]. right. exact Hbad.
Qed.

Lemma ex_sigmoid_range (x : R) : 0 <= ex_sigmoid x <= 1.
Proof.
  unfold ex_sigmoid. destruct (Rle_dec 40 x); [lra|].
  destruct (Rle_dec x (-40)); [lra|].
  pose proof (sigmoid_bounds x). lra.
Defined.

Lemma beta_forward_concentrations_at_least_one_witness :
  exists alpha beta,
    rounded.concentrations (fun x => x) ex_sigmoid ex_likelihood ex_samples_far
    = Ok (alpha, beta) /\
    rounded.forward (fun x => x) ex_sigmoid ex_likelihood ex_samples_far
    = rounded.Beta_init alpha beta /\
    dims alpha = [3%nat] /\ dims beta = [3%nat] /\
    (forall ix, in_range ix [3%nat] = true ->
       let m := ex_sigmoid (cell ex_samples_far (torch.bix (dims ex_samples_far) ix)) in
       let s := cell (BetaLikelihood.scale ex_likelihood)
                  (torch.bix (dims (BetaLikelihood.scale ex_likelihood)) ix) in
       cell alpha ix = m * s + 1 /\
       cell beta ix = s - cell alpha ix + 2 /\
       1 <= cell alpha ix /\
       (m * s = m * s -> m * s + 1 = m * s + 1 ->
        s - (m * s + 1) = s - (m * s + 1) ->
        s - (m * s + 1) + 2 = s - (m * s + 1) + 2 ->
        cell alpha ix = m * s + 1 /\
        cell beta ix = (1 - m) * s + 1 /\
        1 <= cell beta ix /\
        cell alpha ix + cell beta ix = s + 2)) /\
    (~ In 0%nat [3%nat] ->
     (forall ix, in_range ix [3%nat] = true -> 0 < cell beta ix) ->
     exists c1 c0,
       rounded.forward (fun x => x) ex_sigmoid ex_likelihood ex_samples_far
       = Ok {| BetaLikelihood.concentration1 := c1; BetaLikelihood.concentration0 := c0 |} /\
       dims c1 = [3%nat] /\ dims c0 = [3%nat] /\
       forall ix, in_range ix [3%nat] = true ->
         cell c1 ix = cell alpha ix /\ cell c0 ix = cell beta ix) /\
    (~ In 0%nat [3%nat] ->
     (exists ix, in_range ix [3%nat] = true /\ cell beta ix <= 0) ->
     rounded.forward (fun x => x) ex_sigmoid ex_likelihood ex_samples_far = Err ValueError).
Proof.
  apply (beta_forward_concentrations_at_least_one (fun x => x) ex_sigmoid ex_likelihood
           ex_samples_far [3%nat]).
  - intros x y H. exact H.
  - reflexivity.
  - reflexivity.
  - exact ex_sigmoid_range.
  - reflexivity.
  - intros [|[|i] [|j ix]] H; try discriminate H. simpl. lra.
Defined.

(** C10 fails on binary64 numbers.  At a function sample of 40 the sigmoid
    is 1 / (1 + exp(-40)) = 1 and scale 1 gives the concentrations (2, 1);
    at a sample whose exp(-x) overflows the sigmoid is 0 and the
    concentrations are (1, 2): neither pair is strictly above 1.  With the
    sigmoid at 1, the scale 1 + 3 * 2^-52 gives a concentration0 below 1 and
    the scale 2^53 + 2 gives concentration0 = 0, which the Beta constructor
    refuses.  At sigmoid 1/2 and the scale nearest to 0.1 the two
    concentrations do not add up to scale + 2. *)
Lemma beta_concentrations_reach_one_in_binary64 :
  binary64.sigmoid_of_exp exp_minus_40 = 1%float /\
  binary64.concentrations 1 1 = (2, 1)%float /\
  binary64.sigmoid_of_exp infinity = 0%float /\
  binary64.concentrations 0 1 = (1, 2)%float /\
  binary64.concentrations 1 0x1.0000000000003p+0
  = (0x1.0000000000002p+1, 0x1.ffffffffffffep-1)%float /\
  binary64.concentrations 1 9007199254740994 = (9007199254740996, 0)%float /\
  (let (alpha, beta) := binary64.concentrations 0.5 0x1.999999999999ap-4 in
   PrimFloat.eqb (alpha + beta) (0x1.999999999999ap-4 + 2))%float = false.
Proof.
  repeat split; vm_compute; reflexivity.
Qed.
